(** * The logs sender's connection manager

    A shallow embedding of [pkg/logs/sender/connection_manager.go]:
    the [ConnectionManager] record, its constructor, the retry loop of
    [NewConnection], the [backoff] policy and the close-watcher
    [handleServerClose].

    Everything outside the file (the network, the SOCKS5 dialer, the TLS
    handshake, the logger, the timer) is the environment.  A call made to
    it is recorded as an [Event]; the answer it gives is read from a
    script, one [Attempt] per iteration of the retry loop.  A script is a
    finite prefix of what the environment does: when it runs out the call
    is still inside its loop ([Blocked]). *)

From Stdlib Require Import ZArith List String Bool Lia.
From Stdlib Require Import DecimalString.
Import ListNotations.
Local Open Scope Z_scope.
Local Open Scope string_scope.
Local Open Scope list_scope.

(** ** Machine integers *)

(** Go's [int] is 64 bits wide on the platforms the agent is built for
    and [time.Duration] is an [int64]; arithmetic on both wraps around
    in two's complement. *)
Module Int.

Definition size : Z := 64.
Definition min_int : Z := - 2 ^ (size - 1).
Definition max_int : Z := 2 ^ (size - 1) - 1.

Definition wrap (z : Z) : Z := (z - min_int) mod 2 ^ size + min_int.

Definition in_range (z : Z) : Prop := min_int <= z <= max_int.

Definition add (x y : Z) : Z := wrap (x + y).
Definition mul (x y : Z) : Z := wrap (x * y).

End Int.

(** ** Data model *)

(** A Go [error].  [io.EOF] is one distinguished value, compared by
    identity; every other error is told apart by its message only. *)
Inductive error : Type :=
| EOF
| errorString (msg : string).

(** A [net.Conn]: the nil interface, a transport stream handed out by a
    dialer (named by its descriptor), or the client side of a TLS
    session laid over another connection. *)
Inductive Conn : Type :=
| nilConn
| transport (fd : nat)
| tlsClient (under : Conn) (ServerName : string).

Definition is_nil (c : Conn) : bool :=
  match c with nilConn => true | _ => false end.

Definition is_tls (c : Conn) : bool :=
  match c with tlsClient _ _ => true | _ => false end.

(** The forwarding dialer given to [proxy.SOCKS5]. *)
Inductive Forward : Type := Direct.

(** What the manager asks of its environment, in the order it asks. *)
Inductive Event : Type :=
| MutexLock
| MutexUnlock
| LogInfo (args : list string)
| LogWarn (err : error)
| CallSOCKS5 (network addr : string) (auth : option (string * string)) (forward : Forward)
| CallProxyDial (network addr : string)
| CallDialTimeout (network addr : string) (timeout : Z)
| CallHandshake (sslConn : Conn)
| Sleep (d : Z)
| Go_handleServerClose (conn : Conn)
| CallRead (conn : Conn) (len : nat)
| CallClose (conn : Conn).

Definition backoffSleepTimeUnit : Z := 2.
Definition maxBackoffSleepTime : Z := 30.
(** [time.Second], in nanoseconds. *)
Definition Second : Z := 1000000000.
Definition timeout : Z := Int.mul 20 Second.

(** The [mutex] field is left out of the record: the embedding is
    sequential and keeps only the lock and unlock calls, as events. *)
Record ConnectionManager : Type := mkConnectionManager {
  connectionString : string;
  serverName : string;
  devModeNoSSL : bool;
  socksProxy : string;
  retries : Z;
  firstConn : bool
}.

Definition set_retries (r : Z) (cm : ConnectionManager) : ConnectionManager :=
  mkConnectionManager (connectionString cm) (serverName cm) (devModeNoSSL cm)
    (socksProxy cm) r (firstConn cm).

Definition set_firstConn (b : bool) (cm : ConnectionManager) : ConnectionManager :=
  mkConnectionManager (connectionString cm) (serverName cm) (devModeNoSSL cm)
    (socksProxy cm) (retries cm) b.

(** [fmt.Sprintf("%d", n)] *)
Definition sprint_d (n : Z) : string := NilZero.string_of_int (Z.to_int n).

Definition NewConnectionManager (serverName : string) (serverPort : Z)
    (devModeNoSSL : bool) (socksProxy : string) : ConnectionManager :=
  {| connectionString := (serverName ++ ":" ++ sprint_d serverPort)%string;
     serverName := serverName;
     devModeNoSSL := devModeNoSSL;
     socksProxy := socksProxy;
     retries := 0;
     firstConn := true |}.

(** ** The environment *)

(** A dialer answers with a pair [(net.Conn, error)]; the connection is
    a transport stream or nil. *)
Definition DialReply : Type := (option nat * option error)%type.

Definition conn_of (fd : option nat) : Conn :=
  match fd with
  | Some n => transport n
  | None => nilConn
  end.

(** The answers the environment would give during one iteration of the
    retry loop, one field per call the iteration can make. *)
Record Attempt : Type := mkAttempt {
  SOCKS5_err : option error;
  proxyDial_reply : DialReply;
  DialTimeout_reply : DialReply;
  Handshake_err : option error
}.


(** ** Statements of a loop body *)

(** A statement runs on the manager, emits events, and either falls
    through with a value, jumps back to the head of the loop, or leaves
    the function with the connection it returns. *)
Inductive Ctl (A : Type) : Type :=
| Val (a : A)
| Continue
| Return (c : Conn).
Arguments Val {A} a.
Arguments Continue {A}.
Arguments Return {A} c.

Definition Stmt (A : Type) : Type :=
  ConnectionManager -> list Event * ConnectionManager * Ctl A.

Definition pure {A} (a : A) : Stmt A := fun cm => ([], cm, Val a).

Definition bind {A B} (s : Stmt A) (k : A -> Stmt B) : Stmt B :=
  fun cm =>
    match s cm with
    | (evs, cm1, Val a) =>
        match k a cm1 with
        | (evs', cm2, ctl) => (evs ++ evs', cm2, ctl)
        end
    | (evs, cm1, Continue) => (evs, cm1, Continue)
    | (evs, cm1, Return c) => (evs, cm1, Return c)
    end.

Definition continue {A} : Stmt A := fun cm => ([], cm, Continue).
Definition return_ {A} (c : Conn) : Stmt A := fun cm => ([], cm, Return c).
Definition emit (ev : Event) : Stmt unit := fun cm => ([ev], cm, Val tt).
Definition read {A} (field : ConnectionManager -> A) : Stmt A :=
  fun cm => ([], cm, Val (field cm)).
Definition update (f : ConnectionManager -> ConnectionManager) : Stmt unit :=
  fun cm => ([], f cm, Val tt).
Definition when (b : bool) (s : Stmt unit) : Stmt unit :=
  if b then s else pure tt.

Declare Scope stmt_scope.
Delimit Scope stmt_scope with stmt.
Notation "x <- s ;; k" := (bind s (fun x => k))
  (at level 61, s at next level, right associativity) : stmt_scope.
Notation "' p <- s ;; k" := (bind s (fun x => let p := x in k))
  (at level 61, p pattern, s at next level, right associativity) : stmt_scope.
Notation "s ;; k" := (bind s (fun _ => k))
  (at level 61, right associativity) : stmt_scope.

(** Calls into the logger and the libraries: the call is recorded and
    the scripted answer returned. *)
Definition log_Info (args : list string) : Stmt unit := emit (LogInfo args).
Definition log_Warn (e : error) : Stmt unit := emit (LogWarn e).

Definition proxy_SOCKS5 (w : Attempt) (network addr : string)
    (auth : option (string * string)) (forward : Forward) : Stmt (option error) :=
  bind (emit (CallSOCKS5 network addr auth forward)) (fun _ => pure (SOCKS5_err w)).

Definition proxyDialer_Dial (w : Attempt) (network addr : string) : Stmt DialReply :=
  bind (emit (CallProxyDial network addr)) (fun _ => pure (proxyDial_reply w)).

Definition net_DialTimeout (w : Attempt) (network addr : string) (t : Z) : Stmt DialReply :=
  bind (emit (CallDialTimeout network addr t)) (fun _ => pure (DialTimeout_reply w)).

Definition tls_Client (conn : Conn) (ServerName : string) : Conn :=
  tlsClient conn ServerName.

(** What [Handshake] does with a session laid over a nil connection is
    the library's affair: here too the script answers. *)
Definition Handshake (w : Attempt) (sslConn : Conn) : Stmt (option error) :=
  bind (emit (CallHandshake sslConn)) (fun _ => pure (Handshake_err w)).

(** ** backoff *)

(** The argument of [time.NewTimer]: the product of an untyped constant
    and an [int], capped from above only, converted to a [Duration] and
    scaled to nanoseconds. *)
Definition backoffDuration (retries : Z) : Z :=
  let backoffDuration := Int.mul backoffSleepTimeUnit retries in
  let backoffDuration :=
    if backoffDuration >? maxBackoffSleepTime then maxBackoffSleepTime
    else backoffDuration in
  Int.mul Second backoffDuration.

(** Receiving from the timer's channel blocks until it fires; a timer
    set to zero or less fires at once. *)
Definition backoff : Stmt unit :=
  (r <- read retries ;;
   emit (Sleep (backoffDuration r)))%stmt.

(** ** NewConnection *)

(** One iteration of the [for] loop.  In the proxy branch the short
    declaration [proxyDialer, err := proxy.SOCKS5(...)] declares a second
    [err], local to the branch; it is written [err'] here.  The
    assignment [outConn, err = proxyDialer.Dial(...)] that follows is
    inside the same branch, so it sets the outer [outConn] and the
    branch's [err']: the [err] declared by [var err error] stays nil. *)
Definition NewConnection_iteration (w : Attempt) : Stmt Empty_set :=
  (fc <- read firstConn ;;
   when fc
     (cs <- read connectionString ;;
      log_Info ["Connecting to the backend: "; cs] ;;
      update (set_firstConn false)) ;;

   update (fun cm => set_retries (Int.add (retries cm) 1) cm) ;;

   let outConn := nilConn in
   let err : option error := None in

   sp <- read socksProxy ;;
   cs <- read connectionString ;;
   '(outConn, err) <-
     (if negb (sp =? "") then
        log_Info ["Connecting to logs intake via socks5://"; sp] ;;
        err' <- proxy_SOCKS5 w "tcp" sp None Direct ;;
        match err' with
        | Some e => log_Warn e ;; backoff ;; continue
        | None =>
            '(fd, err') <- proxyDialer_Dial w "tcp" cs ;;
            pure (conn_of fd, err)
        end
      else
        '(fd, err) <- net_DialTimeout w "tcp" cs timeout ;;
        pure (conn_of fd, err)) ;;
   match err with
   | Some e => log_Warn e ;; backoff ;; continue
   | None =>
       dev <- read devModeNoSSL ;;
       outConn <-
         (if negb dev then
            sn <- read serverName ;;
            let sslConn := tls_Client outConn sn in
            err <- Handshake w sslConn ;;
            match err with
            | Some e => log_Warn e ;; backoff ;; continue
            | None => pure sslConn
            end
          else pure outConn) ;;
       update (set_retries 0) ;;
       emit (Go_handleServerClose outConn) ;;
       return_ outConn
   end)%stmt.

(** What a caller has seen of a call so far. *)
Inductive Outcome : Type :=
| Blocked
| Returned (c : Conn).

Record Run : Type := mkRun {
  trace : list Event;
  final : ConnectionManager;
  outcome : Outcome;
  unused : list Attempt
}.

Definition after (evs : list Event) (r : Run) : Run :=
  mkRun (evs ++ trace r) (final r) (outcome r) (unused r).

(** The [for] loop, one iteration per scripted attempt. *)
Fixpoint NewConnection_loop (cm : ConnectionManager) (world : list Attempt) : Run :=
  match world with
  | [] => mkRun [] cm Blocked []
  | w :: world' =>
      match NewConnection_iteration w cm with
      | (evs, cm', Return c) => mkRun evs cm' (Returned c) world'
      | (evs, cm', Continue) => after evs (NewConnection_loop cm' world')
      | (evs, cm', Val v) => match v with end
      end
  end.

(** The deferred unlock runs when the function returns. *)
Definition NewConnection (cm : ConnectionManager) (world : list Attempt) : Run :=
  let r := NewConnection_loop cm world in
  match outcome r with
  | Returned _ => mkRun (MutexLock :: trace r ++ [MutexUnlock]) (final r) (outcome r) (unused r)
  | Blocked => after [MutexLock] r
  end.

(** Successive calls on one manager.  A call that never returns keeps
    the lock, so no later call gets to run. *)
Fixpoint session (calls : nat) (cm : ConnectionManager) (world : list Attempt)
    : list Event * ConnectionManager :=
  match calls with
  | O => ([], cm)
  | S calls' =>
      let r := NewConnection cm world in
      match outcome r with
      | Returned _ =>
          let '(evs, cm') := session calls' (final r) (unused r) in
          (trace r ++ evs, cm')
      | Blocked => (trace r, final r)
      end
  end.

(** ** CloseConnection and handleServerClose *)

Definition CloseConnection (conn : Conn) : list Event := [CallClose conn].

(** What [conn.Read(buff)] gives back: the count and the error. *)
Definition ReadReply : Type := (Z * option error)%type.

Inductive Watcher : Type :=
| Watching
| Terminated
| Panicked.

(** The watcher's loop over the scripted answers of [conn.Read]; a
    method call on the nil interface is a run-time panic. *)
Fixpoint handleServerClose (conn : Conn) (reads : list ReadReply)
    : list Event * Watcher :=
  if is_nil conn then ([], Panicked) else
  match reads with
  | [] => ([CallRead conn 1], Watching)
  | (_, err) :: reads' =>
      match err with
      | Some EOF => (CallRead conn 1 :: CloseConnection conn, Terminated)
      | Some e => ([CallRead conn 1; LogWarn e], Terminated)
      | None =>
          let '(evs, st) := handleServerClose conn reads' in
          (CallRead conn 1 :: evs, st)
      end
  end.

(** ** Reading a trace *)

Definition is_backend_info (ev : Event) : bool :=
  match ev with
  | LogInfo (msg :: _) => msg =? "Connecting to the backend: "
  | _ => false
  end.

Definition is_close (ev : Event) : bool :=
  match ev with CallClose _ => true | _ => false end.

Definition is_handshake (ev : Event) : bool :=
  match ev with CallHandshake _ => true | _ => false end.

Definition is_warn (ev : Event) : bool :=
  match ev with LogWarn _ => true | _ => false end.

(** The durations of the sleeps of a trace, oldest first. *)
Fixpoint sleeps (evs : list Event) : list Z :=
  match evs with
  | [] => []
  | Sleep d :: evs' => d :: sleeps evs'
  | _ :: evs' => sleeps evs'
  end.

Definition count (p : Event -> bool) (evs : list Event) : nat :=
  List.length (filter p evs).

(** The events of an iteration from its handshake on. *)
Fixpoint from_handshake (evs : list Event) : list Event :=
  match evs with
  | [] => []
  | CallHandshake c :: _ => evs
  | _ :: evs' => from_handshake evs'
  end.

(** The four fields set by the constructor and never written again. *)
Definition config (cm : ConnectionManager) : string * string * bool * string :=
  (connectionString cm, serverName cm, devModeNoSSL cm, socksProxy cm).

(** The answer of the dial an attempt makes under this configuration. *)
Definition dial_reply (cm : ConnectionManager) (w : Attempt) : DialReply :=
  if socksProxy cm =? "" then DialTimeout_reply w else proxyDial_reply w.

(** The calls that open a connection, as the configuration wants them. *)
Definition dials_as_configured (cm : ConnectionManager) (ev : Event) : Prop :=
  match ev with
  | CallSOCKS5 network addr auth forward =>
      socksProxy cm <> "" /\ network = "tcp" /\ addr = socksProxy cm /\
      auth = None /\ forward = Direct
  | CallProxyDial network addr =>
      socksProxy cm <> "" /\ network = "tcp" /\ addr = connectionString cm
  | CallDialTimeout network addr t =>
      socksProxy cm = "" /\ network = "tcp" /\ addr = connectionString cm /\
      t = 20 * Second
  | _ => True
  end.

Definition is_watcher_start (ev : Event) : bool :=
  match ev with Go_handleServerClose _ => true | _ => false end.

Definition is_mutex (ev : Event) : bool :=
  match ev with MutexLock | MutexUnlock => true | _ => false end.

Definition is_socks_info (ev : Event) : bool :=
  match ev with
  | LogInfo (msg :: _) => msg =? "Connecting to logs intake via socks5://"
  | _ => false
  end.

Definition is_SOCKS5 (ev : Event) : bool :=
  match ev with CallSOCKS5 _ _ _ _ => true | _ => false end.

Definition is_DialTimeout (ev : Event) : bool :=
  match ev with CallDialTimeout _ _ _ => true | _ => false end.

(** The mutex along a trace, starting held or free: [Some] of how it is
    left, or [None] if the trace locks it while held, unlocks it while
    free, or does anything else while it is free. *)
Fixpoint under_lock (held : bool) (evs : list Event) : option bool :=
  match evs with
  | [] => Some held
  | MutexLock :: evs' => if held then None else under_lock true evs'
  | MutexUnlock :: evs' => if held then under_lock false evs' else None
  | _ :: evs' => if held then under_lock true evs' else None
  end.

(** Every warning is followed at once by a sleep, and every sleep
    follows a warning. *)
Fixpoint warn_sleep_paired (evs : list Event) : bool :=
  match evs with
  | [] => true
  | LogWarn _ :: Sleep _ :: evs' => warn_sleep_paired evs'
  | LogWarn _ :: _ => false
  | Sleep _ :: _ => false
  | _ :: evs' => warn_sleep_paired evs'
  end.

(** The attempts a run has used of the ones scripted. *)
Definition attempts (world : list Attempt) (r : Run) : nat :=
  List.length world - List.length (unused r).


(** Every handshake of a trace is made by a TLS client configured with
    the manager's server name. *)
Definition handshakes_as_configured (cm : ConnectionManager) (ev : Event) : Prop :=
  match ev with
  | CallHandshake c =>
      devModeNoSSL cm = false /\ exists under, c = tlsClient under (serverName cm)
  | _ => True
  end.

Definition is_nil_error (e : option error) : bool :=
  match e with None => true | Some _ => false end.

(** After the spec's words (steps 3 to 5 of the acquisition): an attempt
    succeeds when neither its dial step, which with a proxy is the
    construction of the SOCKS5 dialer and the dial through it, nor its
    handshake, if one is due, reports an error. *)
Definition attempt_succeeds (cm : ConnectionManager) (w : Attempt) : bool :=
  (if socksProxy cm =? ""
   then is_nil_error (snd (DialTimeout_reply w))
   else is_nil_error (SOCKS5_err w) && is_nil_error (snd (proxyDial_reply w)))
  && (devModeNoSSL cm || is_nil_error (Handshake_err w)).

(** The attempts in which a dial made through the proxy reports an
    error. *)
Definition proxied_dial_errs (cm : ConnectionManager) (w : Attempt) : bool :=
  negb (socksProxy cm =? "")
  && is_nil_error (SOCKS5_err w)
  && negb (is_nil_error (snd (proxyDial_reply w))).

(** Scripted attempts used in the examples below. *)
Definition refused : option error := Some (errorString "connection refused").
Definition dial_fails : Attempt := mkAttempt None (None, refused) (None, refused) None.
Definition dial_ok (fd : nat) : Attempt := mkAttempt None (Some fd, None) (Some fd, None) None.

(** ** Proof support *)

Arguments Int.wrap : simpl never.
Arguments Int.add : simpl never.
Arguments Int.mul : simpl never.
Arguments backoffDuration : simpl never.
Arguments timeout : simpl never.

(** Runs an iteration on a symbolic manager and attempt: every test the
    body makes is decided by a case split. *)
Ltac unfold_stmts :=
  unfold NewConnection_iteration, proxy_SOCKS5, proxyDialer_Dial,
    net_DialTimeout, Handshake, tls_Client, log_Info, log_Warn, backoff,
    when, bind, read, update, emit, pure, continue, return_.

Ltac run_iteration w cm :=
  destruct cm as [cs sn dev sp r fc];
  destruct w as [se [pfd pe] [dfd de] he];
  unfold_stmts; cbn;
  destruct fc; cbn;
  destruct (sp =? "") eqn:Hsp; cbn;
  destruct se; cbn; destruct pe; cbn; destruct de; cbn;
  destruct dev; cbn; destruct he; cbn.

(** * Properties *)

(** ** Wrap-around arithmetic *)

Lemma wrap_small (z : Z) : Int.in_range z -> Int.wrap z = z.
Proof.
  unfold Int.in_range, Int.wrap, Int.min_int, Int.max_int, Int.size.
  intros H. rewrite Z.mod_small; lia.
Qed.

Lemma wrap_in_range (z : Z) : Int.in_range (Int.wrap z).
Proof.
  unfold Int.in_range, Int.wrap, Int.min_int, Int.max_int, Int.size.
  pose proof (Z.mod_pos_bound (z - - 2 ^ (64 - 1)) (2 ^ 64)). lia.
Qed.

Lemma add_wrap_l (a b : Z) : Int.add (Int.wrap a) b = Int.wrap (a + b).
Proof.
  unfold Int.add, Int.wrap.
  replace ((a - Int.min_int) mod 2 ^ Int.size + Int.min_int + b - Int.min_int)
    with ((a - Int.min_int) mod 2 ^ Int.size + b) by lia.
  rewrite Zplus_mod_idemp_l. f_equal. f_equal. lia.
Qed.

(** ** backoff *)

Lemma backoffDuration_small (r : Z) :
  0 <= r < 2 ^ 62 -> backoffDuration r = Z.min (2 * r) 30 * Second.
Proof.
  intros H. unfold backoffDuration, Int.mul, backoffSleepTimeUnit, maxBackoffSleepTime, Second.
  rewrite (wrap_small (2 * r)).
  2:{ unfold Int.in_range, Int.min_int, Int.max_int, Int.size. lia. }
  destruct (Z.gtb_spec (2 * r) 30) as [Hgt | Hle].
  - rewrite Z.min_r by lia. rewrite wrap_small; [ lia | ].
    unfold Int.in_range, Int.min_int, Int.max_int, Int.size. lia.
  - rewrite Z.min_l by lia. rewrite wrap_small; [ lia | ].
    unfold Int.in_range, Int.min_int, Int.max_int, Int.size. lia.
Qed.

Lemma backoffDuration_bounds (r : Z) :
  1 <= r < 2 ^ 62 -> 2 * Second <= backoffDuration r <= 30 * Second.
Proof.
  intros H. rewrite backoffDuration_small by lia. unfold Second. lia.
Qed.

(** C3, as amended: for every retry count from 0 up to (not including)
    2^62, [backoff] sleeps for min(2 * retries, 30) seconds and changes
    nothing in the manager. *)
Theorem backoff_sleeps_min (cm : ConnectionManager) (r : Z) (Hr : 0 <= r < 2 ^ 62) :
  backoff (set_retries r cm)
  = ([Sleep (Z.min (2 * r) 30 * Second)], set_retries r cm, Val tt).
Proof.
  unfold backoff, bind, read, emit. cbn [retries set_retries app].
  rewrite backoffDuration_small by exact Hr. reflexivity.
Qed.

(** The boundary cases of C3: 0 retries sleep 0 s, 15 and 100 retries
    sleep 30 s. *)
Lemma backoff_sleeps_min_witness :
  let cm := NewConnectionManager "intake" 10516 false "" in
  ((0 <= 0 < 2 ^ 62) /\
   backoff (set_retries 0 cm) = ([Sleep (0 * Second)], set_retries 0 cm, Val tt)) /\
  ((0 <= 15 < 2 ^ 62) /\
   backoff (set_retries 15 cm) = ([Sleep (30 * Second)], set_retries 15 cm, Val tt)) /\
  ((0 <= 100 < 2 ^ 62) /\
   backoff (set_retries 100 cm) = ([Sleep (30 * Second)], set_retries 100 cm, Val tt)).
Proof.
  intros cm.
  assert (H0 : 0 <= 0 < 2 ^ 62) by lia.
  assert (H15 : 0 <= 15 < 2 ^ 62) by lia.
  assert (H100 : 0 <= 100 < 2 ^ 62) by lia.
  split; [ | split ]; (split; [ assumption | ]).
  - exact (backoff_sleeps_min cm 0 H0).
  - exact (backoff_sleeps_min cm 15 H15).
  - exact (backoff_sleeps_min cm 100 H100).
Defined.

(** C3 as stated fails where the doubling overflows: with 2^62 retries
    the product wraps to the least [int], escapes the cap, and scaled to
    nanoseconds wraps again, to a timer of zero length. *)
Lemma backoff_overflows_at_2_62 :
  0 <= 2 ^ 62 <= Int.max_int /\
  backoffDuration (2 ^ 62) = 0 /\
  ~ (forall r : Z, 0 <= r <= Int.max_int ->
       backoffDuration r = Z.min (2 * r) 30 * Second).
Proof.
  split; [ | split ].
  - unfold Int.max_int, Int.size. lia.
  - vm_compute. reflexivity.
  - intros H. specialize (H (2 ^ 62)).
    assert (Hr : 0 <= 2 ^ 62 <= Int.max_int) by (unfold Int.max_int, Int.size; lia).
    apply H in Hr. vm_compute in Hr. discriminate Hr.
Qed.

(** ** One iteration of the retry loop *)

Lemma iteration_fields (w : Attempt) (cm : ConnectionManager) :
  let '(_, cm', _) := NewConnection_iteration w cm in
  connectionString cm' = connectionString cm /\
  serverName cm' = serverName cm /\
  devModeNoSSL cm' = devModeNoSSL cm /\
  socksProxy cm' = socksProxy cm /\
  firstConn cm' = false.
Proof. run_iteration w cm; repeat split. Qed.

(** The counter and the sleeps: an iteration that goes round again has
    added one to [retries], warned once and slept once, for the time the
    new count gives; an iteration that returns has set the count to zero
    without a warning or a sleep, and started the watcher on what it
    returns. *)
Lemma iteration_retries (w : Attempt) (cm : ConnectionManager) :
  let '(evs, cm', ctl) := NewConnection_iteration w cm in
  match ctl with
  | Continue =>
      retries cm' = Int.add (retries cm) 1 /\
      sleeps evs = [backoffDuration (retries cm')] /\
      count is_warn evs = 1%nat
  | Return c =>
      retries cm' = 0 /\ sleeps evs = [] /\ count is_warn evs = 0%nat /\
      In (Go_handleServerClose c) evs
  | Val v => False
  end.
Proof. run_iteration w cm; repeat split; auto 10 using in_eq, in_cons. Qed.

Lemma iteration_backend_info (w : Attempt) (cm : ConnectionManager) :
  let '(evs, _, _) := NewConnection_iteration w cm in
  exists rest,
    evs = (if firstConn cm
           then [LogInfo ["Connecting to the backend: "; connectionString cm]]
           else []) ++ rest /\
    count is_backend_info rest = 0%nat.
Proof. run_iteration w cm; eexists; (split; [ reflexivity | reflexivity ]). Qed.

Lemma iteration_no_close (w : Attempt) (cm : ConnectionManager) :
  let '(evs, _, _) := NewConnection_iteration w cm in
  count is_close evs = 0%nat.
Proof. run_iteration w cm; reflexivity. Qed.

(** ** Traces *)

Lemma sleeps_app (a b : list Event) : sleeps (a ++ b) = sleeps a ++ sleeps b.
Proof.
  induction a as [ | ev a IH ]; [ reflexivity | ].
  destruct ev; cbn; rewrite ?IH; reflexivity.
Qed.

Lemma sleeps_In (d : Z) (evs : list Event) : In d (sleeps evs) <-> In (Sleep d) evs.
Proof.
  induction evs as [ | ev evs IH ]; [ reflexivity | ].
  destruct ev; cbn; rewrite IH; split; intros H;
    try (right; exact H);
    try (destruct H as [H | H]; [ discriminate H | exact H ]).
  - destruct H as [H | H]; [ left; congruence | right; exact H ].
  - destruct H as [H | H]; [ left; congruence | right; exact H ].
Qed.

Lemma count_app (p : Event -> bool) (a b : list Event) :
  count p (a ++ b) = (count p a + count p b)%nat.
Proof. unfold count. rewrite filter_app, length_app. reflexivity. Qed.

Lemma count_zero_Forall (p : Event -> bool) (evs : list Event) :
  count p evs = 0%nat <-> Forall (fun ev => p ev = false) evs.
Proof.
  unfold count. induction evs as [ | ev evs IH ]; cbn.
  - split; [ constructor | reflexivity ].
  - destruct (p ev) eqn:Hp; cbn.
    + split; [ discriminate | ]. intros H. inversion H; congruence.
    + rewrite IH. split; [ constructor; assumption | ].
      intros H. inversion H; assumption.
Qed.

(** ** The loop *)

Lemma loop_cons (w : Attempt) (world : list Attempt) (cm : ConnectionManager) :
  NewConnection_loop cm (w :: world)
  = match NewConnection_iteration w cm with
    | (evs, cm', Return c) => mkRun evs cm' (Returned c) world
    | (evs, cm', Continue) => after evs (NewConnection_loop cm' world)
    | (evs, cm', Val v) => match v with end
    end.
Proof. reflexivity. Qed.

(** [NewConnection] adds the lock and, on return, the unlock. *)
Lemma NewConnection_trace (cm : ConnectionManager) (world : list Attempt) :
  let r := NewConnection_loop cm world in
  trace (NewConnection cm world)
  = MutexLock :: trace r
      ++ match outcome r with Returned _ => [MutexUnlock] | Blocked => [] end /\
  final (NewConnection cm world) = final r /\
  outcome (NewConnection cm world) = outcome r /\
  unused (NewConnection cm world) = unused r.
Proof.
  unfold NewConnection. cbv zeta.
  destruct (outcome (NewConnection_loop cm world)) eqn:Ho; cbn;
    rewrite ?app_nil_r; auto.
Qed.

(** The k-th failed attempt of a call sleeps for the time that
    [retries + k] gives, wrap-around included; a call still in its loop
    has failed every attempt made so far. *)
Lemma loop_counter (world : list Attempt) :
  forall cm : ConnectionManager,
    Int.in_range (retries cm) ->
    let r := NewConnection_loop cm world in
    sleeps (trace r)
    = map (fun k => backoffDuration (Int.wrap (retries cm + Z.of_nat k)))
        (seq 1 (count is_warn (trace r))) /\
    match outcome r with
    | Returned _ => retries (final r) = 0
    | Blocked =>
        count is_warn (trace r) = List.length world /\
        retries (final r) = Int.wrap (retries cm + Z.of_nat (List.length world))
    end.
Proof.
  induction world as [ | w world IH ]; intros cm Hcm; cbv zeta.
  - cbn. rewrite Z.add_0_r, wrap_small by exact Hcm. auto.
  - rewrite loop_cons. pose proof (iteration_retries w cm) as Hit.
    destruct (NewConnection_iteration w cm) as [[evs cm'] [ v | | c ]].
    + destruct Hit.
    + destruct Hit as (Hr & Hs & Hw).
      assert (Hcm' : Int.in_range (retries cm')) by (rewrite Hr; apply wrap_in_range).
      specialize (IH cm' Hcm'). cbv zeta in IH. destruct IH as [IHs IHo].
      cbn [after trace final outcome].
      rewrite sleeps_app, count_app, Hs, Hw, IHs. split.
      * cbn [Nat.add seq map app]. f_equal.
        -- rewrite Hr. reflexivity.
        -- rewrite <- (seq_shift _ 1), map_map. apply map_ext. intros k.
           rewrite Hr. unfold Int.add at 1.
           change (Int.wrap (Int.wrap (retries cm + 1) + Z.of_nat k))
             with (Int.add (Int.wrap (retries cm + 1)) (Z.of_nat k)).
           rewrite add_wrap_l. do 2 f_equal. lia.
      * destruct (outcome (NewConnection_loop cm' world)); [ | exact IHo ].
        destruct IHo as [IHn IHr]. split.
        -- rewrite IHn. reflexivity.
        -- rewrite IHr, Hr. unfold Int.add at 1.
           change (Int.wrap (Int.wrap (retries cm + 1) + Z.of_nat (List.length world)))
             with (Int.add (Int.wrap (retries cm + 1)) (Z.of_nat (List.length world))).
           rewrite add_wrap_l. f_equal. cbn [List.length]. lia.
    + destruct Hit as (Hr & Hs & Hw & _).
      cbn [trace final outcome]. rewrite Hs, Hw. cbn. auto.
Qed.

Lemma loop_warn_le (world : list Attempt) :
  forall cm : ConnectionManager,
    (count is_warn (trace (NewConnection_loop cm world)) <= List.length world)%nat.
Proof.
  induction world as [ | w world IH ]; intros cm; [ cbn; lia | ].
  rewrite loop_cons. pose proof (iteration_retries w cm) as Hit.
  destruct (NewConnection_iteration w cm) as [[evs cm'] [ v | | c ]].
  - destruct Hit.
  - destruct Hit as (_ & _ & Hw). cbn [after trace].
    rewrite count_app, Hw. specialize (IH cm'). cbn [List.length]. lia.
  - destruct Hit as (_ & _ & Hw & _). cbn [trace List.length]. lia.
Qed.

Lemma sleeps_NewConnection (cm : ConnectionManager) (world : list Attempt) :
  sleeps (trace (NewConnection cm world)) = sleeps (trace (NewConnection_loop cm world)).
Proof.
  destruct (NewConnection_trace cm world) as (Ht & _). rewrite Ht.
  cbn [sleeps]. rewrite sleeps_app.
  destruct (outcome (NewConnection_loop cm world)); cbn; apply app_nil_r.
Qed.

Lemma count_NewConnection (p : Event -> bool) (cm : ConnectionManager) (world : list Attempt) :
  p MutexLock = false -> p MutexUnlock = false ->
  count p (trace (NewConnection cm world)) = count p (trace (NewConnection_loop cm world)).
Proof.
  intros Hl Hu. destruct (NewConnection_trace cm world) as (Ht & _). rewrite Ht.
  change (MutexLock :: ?t) with ([MutexLock] ++ t).
  rewrite !count_app. unfold count at 1. cbn [filter]. rewrite Hl.
  destruct (outcome (NewConnection_loop cm world)); unfold count at 2; cbn [filter];
    rewrite ?Hu; cbn; lia.
Qed.

Lemma zero_in_range : Int.in_range 0.
Proof. unfold Int.in_range, Int.min_int, Int.max_int, Int.size. lia. Qed.

(** ** What stays the same over a call *)

Lemma iteration_config (w : Attempt) (cm : ConnectionManager) :
  let '(_, cm', _) := NewConnection_iteration w cm in config cm' = config cm.
Proof.
  pose proof (iteration_fields w cm) as H.
  destruct (NewConnection_iteration w cm) as [[evs cm'] ctl].
  destruct H as (H1 & H2 & H3 & H4 & _). unfold config. congruence.
Qed.

(** What holds of the events of every iteration under one configuration
    holds of the events of the loop. *)
Lemma loop_Forall (P : Event -> Prop) (k : string * string * bool * string) :
  (forall (w : Attempt) (cm : ConnectionManager),
     config cm = k ->
     let '(evs, _, _) := NewConnection_iteration w cm in Forall P evs) ->
  forall (world : list Attempt) (cm : ConnectionManager),
    config cm = k -> Forall P (trace (NewConnection_loop cm world)).
Proof.
  intros Hit. induction world as [ | w world IH ]; intros cm Hk; [ constructor | ].
  rewrite loop_cons. specialize (Hit w cm Hk).
  pose proof (iteration_config w cm) as Hc.
  destruct (NewConnection_iteration w cm) as [[evs cm'] [ v | | c ]].
  - destruct v.
  - cbn [after trace]. apply Forall_app. split; [ exact Hit | ].
    apply IH. congruence.
  - exact Hit.
Qed.

Lemma NewConnection_Forall (P : Event -> Prop) (cm : ConnectionManager) (world : list Attempt) :
  P MutexLock -> P MutexUnlock ->
  Forall P (trace (NewConnection_loop cm world)) ->
  Forall P (trace (NewConnection cm world)).
Proof.
  intros Hl Hu HF. destruct (NewConnection_trace cm world) as (Ht & _). rewrite Ht.
  constructor; [ exact Hl | ]. apply Forall_app. split; [ exact HF | ].
  destruct (outcome (NewConnection_loop cm world)); repeat constructor; exact Hu.
Qed.

(** A call that has returned did so in the last attempt it used, on a
    manager configured as at the start. *)
Lemma loop_returned (world : list Attempt) :
  forall (cm : ConnectionManager) (c : Conn),
    outcome (NewConnection_loop cm world) = Returned c ->
    exists pre w cm1 evs,
      world = pre ++ w :: unused (NewConnection_loop cm world) /\
      config cm1 = config cm /\
      NewConnection_iteration w cm1
      = (evs, final (NewConnection_loop cm world), Return c).
Proof.
  induction world as [ | w world IH ]; intros cm c; [ discriminate | ].
  rewrite loop_cons. pose proof (iteration_config w cm) as Hc.
  destruct (NewConnection_iteration w cm) as [[evs cm'] [ v | | x ]] eqn:Hit.
  - destruct v.
  - cbn [after outcome unused final]. intros Ho.
    destruct (IH cm' c Ho) as (pre & w1 & cm1 & evs1 & Hw & Hk & Hr).
    exists (w :: pre), w1, cm1, evs1. split; [ | split ].
    + cbn [app]. f_equal. exact Hw.
    + congruence.
    + exact Hr.
  - cbn [outcome unused final]. intros Ho. injection Ho as ->.
    exists [], w, cm, evs. auto.
Qed.

(** ** The counter and the sleeps *)

(** Within a call that starts from a zero count and has made fewer than
    2^62 attempts nothing wraps: the k-th sleep is the one a count of k
    gives. *)
Lemma call_sleeps (cm : ConnectionManager) (world : list Attempt) :
  retries cm = 0 -> Z.of_nat (List.length world) < 2 ^ 62 ->
  sleeps (trace (NewConnection cm world))
  = map (fun k => backoffDuration (Z.of_nat k))
      (seq 1 (count is_warn (trace (NewConnection cm world)))).
Proof.
  intros H0 Hlen. rewrite sleeps_NewConnection, count_NewConnection by reflexivity.
  assert (Hcm : Int.in_range (retries cm)) by (rewrite H0; apply zero_in_range).
  destruct (loop_counter world cm Hcm) as [Hs _]. cbv zeta in Hs.
  pose proof (loop_warn_le world cm) as Hle.
  rewrite Hs. apply map_ext_in. intros k Hk. apply in_seq in Hk.
  rewrite H0, Z.add_0_l, wrap_small; [ reflexivity | ].
  unfold Int.in_range, Int.min_int, Int.max_int, Int.size. lia.
Qed.

Lemma call_sleeps_bounded (cm : ConnectionManager) (world : list Attempt) :
  retries cm = 0 -> Z.of_nat (List.length world) < 2 ^ 62 ->
  Forall (fun d => 2 * Second <= d <= 30 * Second)
    (sleeps (trace (NewConnection cm world))).
Proof.
  intros H0 Hlen. rewrite (call_sleeps cm world H0 Hlen).
  pose proof (loop_warn_le world cm) as Hle.
  rewrite count_NewConnection by reflexivity.
  apply Forall_forall. intros d Hd.
  apply in_map_iff in Hd. destruct Hd as (k & <- & Hk). apply in_seq in Hk.
  apply backoffDuration_bounds. lia.
Qed.

(** Within a call that starts from a zero count and has made fewer than
    2^63 attempts: in its loop the count is the number of attempts made,
    on return it is zero. *)
Lemma call_retries (cm : ConnectionManager) (world : list Attempt) :
  retries cm = 0 -> Z.of_nat (List.length world) < 2 ^ 63 ->
  match outcome (NewConnection cm world) with
  | Returned _ => retries (final (NewConnection cm world)) = 0
  | Blocked => retries (final (NewConnection cm world)) = Z.of_nat (List.length world)
  end.
Proof.
  intros H0 Hlen.
  assert (Hcm : Int.in_range (retries cm)) by (rewrite H0; apply zero_in_range).
  destruct (NewConnection_trace cm world) as (_ & Hf & Ho & _). rewrite Hf, Ho.
  destruct (loop_counter world cm Hcm) as [_ Hc]. cbv zeta in Hc.
  destruct (outcome (NewConnection_loop cm world)); [ | exact Hc ].
  destruct Hc as [_ Hc]. rewrite Hc, H0, Z.add_0_l. apply wrap_small.
  unfold Int.in_range, Int.min_int, Int.max_int, Int.size. lia.
Qed.

(** A call that returns leaves a zero count and has used up at least one
    attempt: the next call of the session starts as the first did. *)
Lemma call_returned (cm : ConnectionManager) (world : list Attempt) (c : Conn) :
  outcome (NewConnection cm world) = Returned c ->
  retries (final (NewConnection cm world)) = 0 /\
  (List.length (unused (NewConnection cm world)) < List.length world)%nat.
Proof.
  destruct (NewConnection_trace cm world) as (_ & Hf & Ho & Hu). rewrite Hf, Ho, Hu.
  intros Hret.
  destruct (loop_returned world cm c Hret) as (pre & w & cm1 & evs & Hw & _ & Hit).
  pose proof (iteration_retries w cm1) as Hr. rewrite Hit in Hr.
  split; [ apply Hr | ].
  rewrite Hw at 2. rewrite length_app. cbn [List.length]. lia.
Qed.

Lemma session_sleeps_bounded (calls : nat) :
  forall (cm : ConnectionManager) (world : list Attempt),
    retries cm = 0 -> Z.of_nat (List.length world) < 2 ^ 62 ->
    Forall (fun d => 2 * Second <= d <= 30 * Second)
      (sleeps (fst (session calls cm world))).
Proof.
  induction calls as [ | calls IH ]; intros cm world H0 Hlen; [ constructor | ].
  cbn [session]. cbv zeta.
  pose proof (call_sleeps_bounded cm world H0 Hlen) as Hcall.
  destruct (outcome (NewConnection cm world)) as [ | c ] eqn:Ho; [ exact Hcall | ].
  destruct (call_returned cm world c Ho) as [Hr Hu].
  specialize (IH (final (NewConnection cm world)) (unused (NewConnection cm world)) Hr).
  destruct (session calls (final (NewConnection cm world)) (unused (NewConnection cm world)))
    as [evs cm'].
  cbn [fst] in *. rewrite sleeps_app. apply Forall_app. split; [ exact Hcall | ].
  apply IH. lia.
Qed.

Lemma session_retries_nonneg (calls : nat) :
  forall (cm : ConnectionManager) (world : list Attempt),
    retries cm = 0 -> Z.of_nat (List.length world) < 2 ^ 63 ->
    0 <= retries (snd (session calls cm world)).
Proof.
  induction calls as [ | calls IH ]; intros cm world H0 Hlen; [ cbn; lia | ].
  cbn [session]. cbv zeta.
  pose proof (call_retries cm world H0 Hlen) as Hcall.
  destruct (outcome (NewConnection cm world)) as [ | c ] eqn:Ho.
  - cbn [snd]. lia.
  - destruct (call_returned cm world c Ho) as [Hr Hu].
    specialize (IH (final (NewConnection cm world)) (unused (NewConnection cm world)) Hr).
    destruct (session calls (final (NewConnection cm world)) (unused (NewConnection cm world)))
      as [evs cm'].
    cbn [snd] in *. apply IH. lia.
Qed.

(** C10, as amended: in a call that starts from a zero count, as every
    call on a manager does, and has made fewer than 2^62 attempts, the
    k-th sleep is the one [backoff] gives for a count of k, counted from
    1: the increment comes before the sleep.  So every sleep lasts
    between 2 and 30 seconds, in the call and in any sequence of calls
    that follows it on the manager. *)
Theorem backoff_follows_increment (cm : ConnectionManager) (world : list Attempt)
    (H0 : retries cm = 0) (Hlen : Z.of_nat (List.length world) < 2 ^ 62) :
  let r := NewConnection cm world in
  sleeps (trace r)
  = map (fun k => backoffDuration (Z.of_nat k)) (seq 1 (count is_warn (trace r))) /\
  Forall (fun d => 2 * Second <= d <= 30 * Second) (sleeps (trace r)) /\
  forall calls : nat,
    Forall (fun d => 2 * Second <= d <= 30 * Second)
      (sleeps (fst (session calls cm world))).
Proof.
  cbv zeta. split; [ | split ].
  - apply call_sleeps; assumption.
  - apply call_sleeps_bounded; assumption.
  - intros calls. apply session_sleeps_bounded; assumption.
Qed.

(** The scenario of two refused dials and a third that succeeds, in dev
    mode: sleeps of 2 s and 4 s. *)
Lemma backoff_follows_increment_witness :
  let cm := NewConnectionManager "intake" 10516 true "" in
  let world := [dial_fails; dial_fails; dial_ok 7] in
  retries cm = 0 /\
  Z.of_nat (List.length world) < 2 ^ 62 /\
  sleeps (trace (NewConnection cm world)) = [2 * Second; 4 * Second] /\
  Forall (fun d => 2 * Second <= d <= 30 * Second)
    (sleeps (trace (NewConnection cm world))).
Proof.
  intros cm world.
  assert (H0 : retries cm = 0) by reflexivity.
  assert (Hlen : Z.of_nat (List.length world) < 2 ^ 62) by (cbn; lia).
  split; [ exact H0 | ]. split; [ exact Hlen | ].
  destruct (backoff_follows_increment cm world H0 Hlen) as (Hs & Hb & _).
  split; [ | exact Hb ]. rewrite Hs. reflexivity.
Defined.

(** A direct dial that is refused every time keeps the call in its loop. *)
Lemma refused_blocks (n : nat) :
  forall cm : ConnectionManager,
    socksProxy cm = "" ->
    outcome (NewConnection_loop cm (repeat dial_fails n)) = Blocked.
Proof.
  induction n as [ | n IH ]; intros cm Hsp; [ reflexivity | ].
  cbn [repeat]. rewrite loop_cons.
  pose proof (iteration_fields dial_fails cm) as Hf.
  assert (Hc : exists evs cm', NewConnection_iteration dial_fails cm = (evs, cm', Continue)).
  { destruct cm as [cs sn dev sp r fc]. cbn in Hsp. subst sp.
    unfold dial_fails, refused. unfold_stmts. cbn. destruct fc; cbn; eauto. }
  destruct Hc as (evs & cm' & Hc). rewrite Hc in Hf |- *.
  cbn [after outcome]. apply IH. destruct Hf as (_ & _ & _ & Hp & _). congruence.
Qed.

(** After n refused dials in a row on a fresh dev-mode manager the call
    is in its loop, the count is n wrapped, and the last sleep is the one
    the wrapped count gives. *)
Lemma refused_run (n : nat) (cm : ConnectionManager) :
  socksProxy cm = "" -> retries cm = 0 -> (1 <= n)%nat ->
  let r := NewConnection cm (repeat dial_fails n) in
  retries (final r) = Int.wrap (Z.of_nat n) /\
  In (backoffDuration (Int.wrap (Z.of_nat n))) (sleeps (trace r)).
Proof.
  intros Hsp H0 Hn. cbv zeta.
  assert (Hcm : Int.in_range (retries cm)) by (rewrite H0; apply zero_in_range).
  destruct (NewConnection_trace cm (repeat dial_fails n)) as (_ & Hf & _).
  rewrite Hf, sleeps_NewConnection.
  destruct (loop_counter (repeat dial_fails n) cm Hcm) as [Hs Ho]. cbv zeta in Hs, Ho.
  rewrite (refused_blocks n cm Hsp) in Ho. destruct Ho as [Hw Hr].
  rewrite repeat_length in Hw, Hr. rewrite H0, Z.add_0_l in Hr. split; [ exact Hr | ].
  rewrite Hs, Hw. apply in_map_iff. exists n. split.
  - rewrite H0, Z.add_0_l. reflexivity.
  - apply in_seq. lia.
Qed.

(** C10 as stated fails once the doubling overflows: the 2^62-th refused
    dial in a row is followed by a timer of zero length. *)
Lemma zero_sleep_after_2_62_failures :
  In (Sleep 0)
    (trace (NewConnection (NewConnectionManager "intake" 10516 true "")
              (repeat dial_fails (Z.to_nat (2 ^ 62))))) /\
  ~ (2 * Second <= 0 <= 30 * Second).
Proof.
  split; [ | unfold Second; lia ].
  assert (Hn : (1 <= Z.to_nat (2 ^ 62))%nat) by lia.
  assert (Hz : backoffDuration (Int.wrap (Z.of_nat (Z.to_nat (2 ^ 62)))) = 0).
  { rewrite Z2Nat.id by lia. vm_compute. reflexivity. }
  generalize dependent (Z.to_nat (2 ^ 62)). intros n Hn Hz.
  apply sleeps_In. rewrite <- Hz.
  apply (refused_run n (NewConnectionManager "intake" 10516 true ""));
    [ reflexivity | reflexivity | exact Hn ].
Qed.

(** An attempt, other than one whose dial through the proxy reports an
    error, makes the iteration return exactly when it succeeds. *)
Lemma iteration_succeeds (w : Attempt) (cm : ConnectionManager) :
  proxied_dial_errs cm w = false ->
  let '(_, _, ctl) := NewConnection_iteration w cm in
  match ctl with
  | Return _ => attempt_succeeds cm w = true
  | Continue => attempt_succeeds cm w = false
  | Val v => False
  end.
Proof.
  unfold proxied_dial_errs, attempt_succeeds.
  run_iteration w cm; intros H; try discriminate H; reflexivity.
Qed.

Lemma succeeds_config (cm1 cm : ConnectionManager) (w : Attempt) :
  config cm1 = config cm ->
  attempt_succeeds cm1 w = attempt_succeeds cm w /\
  proxied_dial_errs cm1 w = proxied_dial_errs cm w.
Proof.
  unfold config, attempt_succeeds, proxied_dial_errs.
  intros H. injection H as _ _ Hd Hsp. rewrite Hd, Hsp. auto.
Qed.

(** Where no dial through the proxy reports an error, a call returns on
    the first attempt that succeeds, and is in its loop while none has. *)
Lemma loop_succeeds (cm : ConnectionManager) (world : list Attempt) :
  forall cm1 : ConnectionManager,
    config cm1 = config cm ->
    Forall (fun w => proxied_dial_errs cm w = false) world ->
    match outcome (NewConnection_loop cm1 world) with
    | Returned _ =>
        exists pre w,
          world = pre ++ w :: unused (NewConnection_loop cm1 world) /\
          Forall (fun w' => attempt_succeeds cm w' = false) pre /\
          attempt_succeeds cm w = true
    | Blocked => Forall (fun w' => attempt_succeeds cm w' = false) world
    end.
Proof.
  induction world as [ | w world IH ]; intros cm1 Hk Hok; [ constructor | ].
  inversion Hok as [ | w0 l0 Hw Hrest ]; subst.
  rewrite loop_cons.
  pose proof (iteration_succeeds w cm1) as Hit.
  pose proof (iteration_config w cm1) as Hc.
  destruct (succeeds_config cm1 cm w Hk) as [Hs Hp]. rewrite Hp, Hs in Hit.
  specialize (Hit Hw).
  destruct (NewConnection_iteration w cm1) as [[evs cm'] [ v | | c ]].
  - destruct Hit.
  - cbn [after outcome unused].
    assert (Hk' : config cm' = config cm) by congruence.
    specialize (IH cm' Hk' Hrest).
    destruct (outcome (NewConnection_loop cm' world)).
    + constructor; assumption.
    + destruct IH as (pre & w1 & Hw1 & Hpre & Hsucc).
      exists (w :: pre), w1. split; [ | split ].
      * cbn [app]. f_equal. exact Hw1.
      * constructor; assumption.
      * exact Hsucc.
  - cbn [outcome unused]. exists [], w. split; [ reflexivity | ]. split; [ constructor | exact Hit ].
Qed.

(** C4, as amended: in a call that starts from a zero count, as every
    call on a manager does, and has made fewer than 2^63 attempts,
    [retries] is never negative, whatever prefix of the attempts has been
    made and however many calls follow; while the call is in its loop
    the count is the number of attempts made, and when the call returns
    it is zero.  An iteration changes the count in one of two ways: it
    adds one and goes round again, or it sets it to zero and returns;
    [backoff] leaves the manager as it is.  Leaving aside the attempts
    in which a dial through the proxy reports an error, the count is set
    to zero exactly when an attempt succeeds: an iteration returns, with
    the count at zero, on an attempt that succeeds, and adds one on an
    attempt that does not; so a call that has returned did so on its
    first attempt that succeeded, and a call in its loop has had none. *)
Theorem retries_counts_failures (cm : ConnectionManager) (world : list Attempt)
    (H0 : retries cm = 0) (Hlen : Z.of_nat (List.length world) < 2 ^ 63) :
  (forall n calls : nat, 0 <= retries (snd (session calls cm (firstn n world)))) /\
  (forall n : nat, 0 <= retries (final (NewConnection cm (firstn n world)))) /\
  match outcome (NewConnection cm world) with
  | Returned _ => retries (final (NewConnection cm world)) = 0
  | Blocked => retries (final (NewConnection cm world)) = Z.of_nat (List.length world)
  end /\
  (forall (w : Attempt) (c : ConnectionManager),
     0 <= retries c < Int.max_int ->
     match NewConnection_iteration w c with
     | (_, c', Continue) => retries c' = retries c + 1
     | (_, c', Return _) => retries c' = 0
     | (_, _, Val v) => False
     end) /\
  (forall c : ConnectionManager,
     backoff c = ([Sleep (backoffDuration (retries c))], c, Val tt)) /\
  (forall (w : Attempt) (c : ConnectionManager),
     proxied_dial_errs c w = false ->
     0 <= retries c < Int.max_int ->
     match NewConnection_iteration w c with
     | (_, c', Continue) => attempt_succeeds c w = false /\ retries c' = retries c + 1
     | (_, c', Return _) => attempt_succeeds c w = true /\ retries c' = 0
     | (_, _, Val v) => False
     end) /\
  (Forall (fun w => proxied_dial_errs cm w = false) world ->
   match outcome (NewConnection cm world) with
   | Returned _ =>
       retries (final (NewConnection cm world)) = 0 /\
       exists pre w,
         world = pre ++ w :: unused (NewConnection cm world) /\
         Forall (fun w' => attempt_succeeds cm w' = false) pre /\
         attempt_succeeds cm w = true
   | Blocked =>
       retries (final (NewConnection cm world)) = Z.of_nat (List.length world) /\
       Forall (fun w' => attempt_succeeds cm w' = false) world
   end).
Proof.
  assert (Hpre : forall n : nat, Z.of_nat (List.length (firstn n world)) < 2 ^ 63).
  { intros n. rewrite length_firstn. lia. }
  assert (Hstep : forall (w : Attempt) (c : ConnectionManager),
            0 <= retries c < Int.max_int ->
            match NewConnection_iteration w c with
            | (_, c', Continue) => retries c' = retries c + 1
            | (_, c', Return _) => retries c' = 0
            | (_, _, Val v) => False
            end).
  { intros w c Hc. pose proof (iteration_retries w c) as Hit.
    destruct (NewConnection_iteration w c) as [[evs c'] [ v | | x ]].
    + exact Hit.
    + destruct Hit as (Hr & _). rewrite Hr. unfold Int.add. apply wrap_small.
      unfold Int.in_range, Int.min_int, Int.max_int, Int.size in *. lia.
    + destruct Hit as (Hr & _). exact Hr. }
  split; [ | split; [ | split; [ | split; [ | split; [ | split ] ] ] ] ].
  - intros n calls. apply session_retries_nonneg; [ exact H0 | apply Hpre ].
  - intros n. pose proof (call_retries cm (firstn n world) H0 (Hpre n)) as H.
    destruct (outcome (NewConnection cm (firstn n world))); lia.
  - apply call_retries; assumption.
  - exact Hstep.
  - intros c. reflexivity.
  - intros w c Hok Hc. specialize (Hstep w c Hc).
    pose proof (iteration_succeeds w c Hok) as Hs.
    destruct (NewConnection_iteration w c) as [[evs c'] [ v | | x ]]; auto.
  - intros Hok. pose proof (call_retries cm world H0 Hlen) as Hr.
    pose proof (loop_succeeds cm world cm eq_refl Hok) as Hs.
    destruct (NewConnection_trace cm world) as (_ & _ & Ho & Hu).
    rewrite Hu. rewrite Ho in Hr |- *.
    destruct (outcome (NewConnection_loop cm world)); auto.
Qed.

Lemma retries_counts_failures_witness :
  let cm := NewConnectionManager "intake" 10516 true "" in
  let world := [dial_fails; dial_fails; dial_ok 7] in
  retries cm = 0 /\
  Z.of_nat (List.length world) < 2 ^ 63 /\
  retries (final (NewConnection cm (firstn 2 world))) = 2 /\
  retries (final (NewConnection cm world)) = 0 /\
  Forall (fun w => proxied_dial_errs cm w = false) world /\
  exists pre w,
    world = pre ++ w :: unused (NewConnection cm world) /\
    Forall (fun w' => attempt_succeeds cm w' = false) pre /\
    attempt_succeeds cm w = true.
Proof.
  intros cm world.
  assert (H0 : retries cm = 0) by reflexivity.
  assert (Hlen : Z.of_nat (List.length world) < 2 ^ 63) by (cbn; lia).
  assert (Hlen2 : Z.of_nat (List.length (firstn 2 world)) < 2 ^ 63) by (cbn; lia).
  assert (Hok : Forall (fun w => proxied_dial_errs cm w = false) world).
  { repeat constructor. }
  split; [ exact H0 | ]. split; [ exact Hlen | ]. split; [ | split; [ | split ] ].
  - exact (proj1 (proj2 (proj2 (retries_counts_failures cm (firstn 2 world) H0 Hlen2)))).
  - exact (proj1 (proj2 (proj2 (retries_counts_failures cm world H0 Hlen)))).
  - exact Hok.
  - destruct (retries_counts_failures cm world H0 Hlen) as (_ & _ & _ & _ & _ & _ & Hs).
    exact (proj2 (Hs Hok)).
Defined.

(** C4 as stated fails once the counter wraps: after 2^63 refused dials
    in a row [retries] is the least [int].  It also fails where a dial
    through the proxy is refused: the attempt does not succeed, and the
    iteration sets the count to zero and returns. *)
Lemma retries_negative_after_2_63_failures :
  retries (final (NewConnection (NewConnectionManager "intake" 10516 true "")
                    (repeat dial_fails (Z.to_nat (2 ^ 63)))))
  = - 2 ^ 63 /\
  - 2 ^ 63 < 0 /\
  (let cm := set_retries 3 (NewConnectionManager "intake" 10516 true "127.0.0.1:1080") in
   attempt_succeeds cm dial_fails = false /\
   snd (NewConnection_iteration dial_fails cm) = Return nilConn /\
   retries (snd (fst (NewConnection_iteration dial_fails cm))) = 0).
Proof.
  split; [ | split; [ lia | cbv zeta; repeat split ] ].
  assert (Hn : (1 <= Z.to_nat (2 ^ 63))%nat) by lia.
  assert (Hz : Int.wrap (Z.of_nat (Z.to_nat (2 ^ 63))) = - 2 ^ 63).
  { rewrite Z2Nat.id by lia. vm_compute. reflexivity. }
  generalize dependent (Z.to_nat (2 ^ 63)). intros n Hn Hz.
  rewrite <- Hz.
  apply (refused_run n (NewConnectionManager "intake" 10516 true ""));
    [ reflexivity | reflexivity | exact Hn ].
Qed.

(** ** The one-time diagnostic *)

Lemma iteration_firstConn (w : Attempt) (cm : ConnectionManager) :
  let '(_, cm', _) := NewConnection_iteration w cm in firstConn cm' = false.
Proof.
  pose proof (iteration_fields w cm) as H.
  destruct (NewConnection_iteration w cm) as [[evs cm'] ctl]. apply H.
Qed.

(** Once the flag is down a call says nothing more about the backend,
    and the flag stays down. *)
Lemma loop_quiet (world : list Attempt) :
  forall cm : ConnectionManager,
    firstConn cm = false ->
    count is_backend_info (trace (NewConnection_loop cm world)) = 0%nat /\
    firstConn (final (NewConnection_loop cm world)) = false.
Proof.
  induction world as [ | w world IH ]; intros cm Hfc; [ cbn; auto | ].
  rewrite loop_cons.
  pose proof (iteration_backend_info w cm) as Hb.
  pose proof (iteration_firstConn w cm) as Hf.
  destruct (NewConnection_iteration w cm) as [[evs cm'] [ v | | c ]].
  - destruct v.
  - destruct Hb as (rest & -> & Hrest). rewrite Hfc. cbn [after trace final app].
    destruct (IH cm' Hf) as [IHc IHf]. rewrite count_app, Hrest, IHc. auto.
  - destruct Hb as (rest & -> & Hrest). rewrite Hfc. cbn [trace final app]. auto.
Qed.

(** The first attempt of a manager opens with the diagnostic if the flag
    is still up, and brings the flag down. *)
Lemma loop_first_attempt (w : Attempt) (world : list Attempt) (cm : ConnectionManager) :
  exists rest,
    trace (NewConnection_loop cm (w :: world))
    = (if firstConn cm
       then [LogInfo ["Connecting to the backend: "; connectionString cm]]
       else []) ++ rest /\
    count is_backend_info rest = 0%nat /\
    firstConn (final (NewConnection_loop cm (w :: world))) = false.
Proof.
  rewrite loop_cons.
  pose proof (iteration_backend_info w cm) as Hb.
  pose proof (iteration_firstConn w cm) as Hf.
  destruct (NewConnection_iteration w cm) as [[evs cm'] [ v | | c ]].
  - destruct v.
  - destruct Hb as (rest & -> & Hrest). cbn [after trace final].
    destruct (loop_quiet world cm' Hf) as [Hq Hqf].
    exists (rest ++ trace (NewConnection_loop cm' world)).
    rewrite app_assoc, count_app, Hrest, Hq. auto.
  - destruct Hb as (rest & -> & Hrest). cbn [trace final]. exists rest. auto.
Qed.

Lemma session_quiet (calls : nat) :
  forall (cm : ConnectionManager) (world : list Attempt),
    firstConn cm = false ->
    count is_backend_info (fst (session calls cm world)) = 0%nat.
Proof.
  induction calls as [ | calls IH ]; intros cm world Hfc; [ reflexivity | ].
  cbn [session]. cbv zeta.
  destruct (NewConnection_trace cm world) as (_ & Hf & Ho & Hu).
  destruct (loop_quiet world cm Hfc) as [Hq Hqf].
  pose proof (count_NewConnection is_backend_info cm world eq_refl eq_refl) as Hc.
  rewrite Hq in Hc.
  destruct (outcome (NewConnection cm world)); [ exact Hc | ].
  specialize (IH (final (NewConnection cm world)) (unused (NewConnection cm world))).
  rewrite Hf in IH at 1. specialize (IH Hqf).
  destruct (session calls (final (NewConnection cm world)) (unused (NewConnection cm world)))
    as [evs cm'].
  cbn [fst] in *. rewrite count_app, Hc, IH. reflexivity.
Qed.

(** C8: on a manager fresh from its constructor, however many calls are
    made and however many attempts they take, the trace opens with the
    lock and the diagnostic naming host:port, and no later event is that
    diagnostic; it occurs exactly once.  With no attempt made it does
    not occur. *)
Theorem backend_info_once (host : string) (port : Z) (dev : bool) (proxy : string)
    (calls : nat) (w : Attempt) (world : list Attempt) :
  let cm := NewConnectionManager host port dev proxy in
  (exists rest,
     fst (session (S calls) cm (w :: world))
     = MutexLock
         :: LogInfo ["Connecting to the backend: "; (host ++ ":" ++ sprint_d port)%string]
         :: rest /\
     count is_backend_info rest = 0%nat) /\
  count is_backend_info (fst (session (S calls) cm (w :: world))) = 1%nat /\
  count is_backend_info (fst (session (S calls) cm [])) = 0%nat /\
  count is_backend_info (fst (session 0 cm (w :: world))) = 0%nat.
Proof.
  intros cm.
  assert (Hshape : exists rest,
             fst (session (S calls) cm (w :: world))
             = MutexLock
                 :: LogInfo ["Connecting to the backend: "; (host ++ ":" ++ sprint_d port)%string]
                 :: rest /\
             count is_backend_info rest = 0%nat).
  { cbn [session]. cbv zeta.
    destruct (NewConnection_trace cm (w :: world)) as (Ht & Hf & Ho & Hu).
    destruct (loop_first_attempt w world cm) as (rest & Hl & Hrest & Hfc).
    rewrite Hl in Ht. change (firstConn cm) with true in Ht.
    change (connectionString cm) with (host ++ ":" ++ sprint_d port)%string in Ht.
    cbn [app] in Ht. rewrite Ho.
    destruct (outcome (NewConnection_loop cm (w :: world))) eqn:Hout.
    - rewrite Ht, app_nil_r. exists rest. auto.
    - pose proof (session_quiet calls (final (NewConnection cm (w :: world)))
                    (unused (NewConnection cm (w :: world)))) as Hq.
      rewrite Hf in Hq at 1. specialize (Hq Hfc).
      destruct (session calls (final (NewConnection cm (w :: world)))
                  (unused (NewConnection cm (w :: world)))) as [evs cm'].
      cbn [fst] in *. rewrite Ht. cbn [app].
      exists ((rest ++ [MutexUnlock]) ++ evs). split; [ reflexivity | ].
      rewrite !count_app, Hrest, Hq. reflexivity. }
  split; [ exact Hshape | ]. split; [ | split; reflexivity ].
  destruct Hshape as (rest & -> & Hrest).
  change (MutexLock :: ?a :: rest) with ([MutexLock; a] ++ rest).
  rewrite count_app, Hrest. reflexivity.
Qed.

(** ** Routing of the dial *)

Lemma iteration_dials (w : Attempt) (cm : ConnectionManager) :
  let '(evs, _, _) := NewConnection_iteration w cm in
  Forall (dials_as_configured cm) evs /\
  if socksProxy cm =? ""
  then In (CallDialTimeout "tcp" (connectionString cm) (20 * Second)) evs
  else In (CallSOCKS5 "tcp" (socksProxy cm) None Direct) evs /\
       match SOCKS5_err w with
       | None => In (CallProxyDial "tcp" (connectionString cm)) evs
       | Some _ => forall network addr, ~ In (CallProxyDial network addr) evs
       end.
Proof.
  run_iteration w cm;
    first [ apply String.eqb_eq in Hsp | apply String.eqb_neq in Hsp ];
    (split;
     [ repeat (constructor; cbn; auto)
     | cbn; repeat split; auto 10;
       try (intros network addr Hin; cbn in Hin; intuition discriminate) ]).
Qed.

(** C7: every call that opens a connection is the one the configuration
    asks for.  With a proxy address, the SOCKS5 dialer is built over tcp
    for that address with no authentication, the target is dialed
    through it, and [net.DialTimeout] is never called; without one, the
    target is dialed over tcp with a timeout of 20 seconds and the proxy
    is never called.  Every attempt makes its call. *)
Theorem dial_routed_as_configured (cm : ConnectionManager) (world : list Attempt) :
  Forall (dials_as_configured cm) (trace (NewConnection cm world)) /\
  (forall w : Attempt,
     let '(evs, _, _) := NewConnection_iteration w cm in
     if socksProxy cm =? ""
     then In (CallDialTimeout "tcp" (connectionString cm) (20 * Second)) evs
     else In (CallSOCKS5 "tcp" (socksProxy cm) None Direct) evs /\
          match SOCKS5_err w with
          | None => In (CallProxyDial "tcp" (connectionString cm)) evs
          | Some _ => forall network addr, ~ In (CallProxyDial network addr) evs
          end).
Proof.
  split.
  - apply NewConnection_Forall; [ exact I | exact I | ].
    apply (loop_Forall (dials_as_configured cm) (config cm)); [ | reflexivity ].
    intros w cm1 Hk. pose proof (iteration_dials w cm1) as H.
    destruct (NewConnection_iteration w cm1) as [[evs cm'] ctl].
    destruct H as [H _]. revert H. apply Forall_impl. intros ev.
    unfold config in Hk. injection Hk as Hcs _ _ Hsp.
    unfold dials_as_configured. rewrite Hcs, Hsp. auto.
  - intros w. pose proof (iteration_dials w cm) as H.
    destruct (NewConnection_iteration w cm) as [[evs cm'] ctl]. apply H.
Qed.

(** ** Dev mode *)

Lemma iteration_dev_mode (w : Attempt) (cm : ConnectionManager) :
  devModeNoSSL cm = true ->
  let '(evs, _, ctl) := NewConnection_iteration w cm in
  Forall (fun ev => is_handshake ev = false) evs /\
  match ctl with
  | Return c => c = conn_of (fst (dial_reply cm w)) /\ is_tls c = false
  | _ => True
  end.
Proof.
  intros Hdev. revert Hdev. unfold dial_reply.
  run_iteration w cm; intros Hdev; try discriminate Hdev;
    (split; [ repeat constructor | ]); auto;
    (split; [ reflexivity | ]); destruct pfd, dfd; reflexivity.
Qed.

(** C6: with dev mode on, a call never starts a TLS handshake, and what
    it returns is the connection its last dial gave back, as it is, with
    no TLS session over it. *)
Theorem dev_mode_returns_dialed_stream (cm : ConnectionManager) (world : list Attempt)
    (Hdev : devModeNoSSL cm = true) :
  let r := NewConnection cm world in
  count is_handshake (trace r) = 0%nat /\
  forall c : Conn,
    outcome r = Returned c ->
    is_tls c = false /\
    exists pre w,
      world = pre ++ w :: unused r /\
      c = conn_of (fst (dial_reply cm w)).
Proof.
  cbv zeta. split.
  - apply count_zero_Forall. apply NewConnection_Forall; [ reflexivity | reflexivity | ].
    apply (loop_Forall _ (config cm)); [ | reflexivity ].
    intros w cm1 Hk. pose proof (iteration_dev_mode w cm1) as H.
    unfold config in Hk. injection Hk as _ _ Hd _.
    rewrite Hd in H. specialize (H Hdev).
    destruct (NewConnection_iteration w cm1) as [[evs cm'] ctl]. apply H.
  - intros c. destruct (NewConnection_trace cm world) as (_ & _ & Ho & Hu).
    rewrite Ho, Hu. intros Hret.
    destruct (loop_returned world cm c Hret) as (pre & w & cm1 & evs & Hw & Hk & Hit).
    pose proof (iteration_dev_mode w cm1) as H.
    unfold config in Hk. injection Hk as _ _ Hd Hsp.
    rewrite Hd in H. specialize (H Hdev). rewrite Hit in H.
    destruct H as (_ & Hc & Htls). split; [ exact Htls | ].
    exists pre, w. split; [ exact Hw | ].
    rewrite Hc. unfold dial_reply. rewrite Hsp. reflexivity.
Qed.

Lemma dev_mode_returns_dialed_stream_witness :
  let cm := NewConnectionManager "intake" 10516 true "" in
  let world := [dial_fails; dial_fails; dial_ok 7] in
  devModeNoSSL cm = true /\
  outcome (NewConnection cm world) = Returned (transport 7) /\
  count is_handshake (trace (NewConnection cm world)) = 0%nat /\
  is_tls (transport 7) = false.
Proof.
  intros cm world.
  assert (Hdev : devModeNoSSL cm = true) by reflexivity.
  assert (Hret : outcome (NewConnection cm world) = Returned (transport 7)) by reflexivity.
  destruct (dev_mode_returns_dialed_stream cm world Hdev) as [Hh Hc].
  split; [ exact Hdev | ]. split; [ exact Hret | ]. split; [ exact Hh | ].
  exact (proj1 (Hc (transport 7) Hret)).
Defined.

(** ** Handshake failure *)

Lemma loop_no_close (world : list Attempt) (cm : ConnectionManager) :
  count is_close (trace (NewConnection cm world)) = 0%nat.
Proof.
  apply count_zero_Forall. apply NewConnection_Forall; [ reflexivity | reflexivity | ].
  apply (loop_Forall _ (config cm)); [ | reflexivity ].
  intros w cm1 _. pose proof (iteration_no_close w cm1) as H.
  destruct (NewConnection_iteration w cm1) as [[evs cm'] ctl].
  apply count_zero_Forall. exact H.
Qed.

(** C9: when an iteration starts a handshake and the handshake fails,
    what follows the handshake is the warning and the backoff sleep, and
    the loop goes round again; no event of the iteration, and none of
    the whole call, closes a connection. *)
Theorem handshake_failure_closes_nothing (w : Attempt) (cm : ConnectionManager)
    (sslConn : Conn) (e : error)
    (Hatt : In (CallHandshake sslConn) (fst (fst (NewConnection_iteration w cm))))
    (Hfail : Handshake_err w = Some e) :
  (let '(evs, cm', ctl) := NewConnection_iteration w cm in
   ctl = Continue /\
   from_handshake evs
   = [CallHandshake sslConn; LogWarn e; Sleep (backoffDuration (retries cm'))] /\
   Forall (fun ev => is_close ev = false) evs) /\
  forall world : list Attempt,
    count is_close (trace (NewConnection cm world)) = 0%nat.
Proof.
  split; [ | intros world; apply loop_no_close ].
  revert Hatt Hfail.
  run_iteration w cm; intros Hatt Hfail;
    try discriminate Hfail;
    try (exfalso; intuition discriminate);
    injection Hfail as ->;
    (split; [ reflexivity | ]);
    (split; [ | repeat constructor ]);
    intuition (try discriminate; congruence).
Qed.

Lemma handshake_failure_closes_nothing_witness :
  let cm := NewConnectionManager "intake" 10516 false "" in
  let w := mkAttempt None (None, None) (Some 7%nat, None) (Some (errorString "bad certificate")) in
  In (CallHandshake (tlsClient (transport 7) "intake"))
    (fst (fst (NewConnection_iteration w cm))) /\
  Handshake_err w = Some (errorString "bad certificate") /\
  snd (NewConnection_iteration w cm) = Continue /\
  count is_close (trace (NewConnection cm [w; w])) = 0%nat.
Proof.
  intros cm w.
  assert (Hatt : In (CallHandshake (tlsClient (transport 7) "intake"))
                   (fst (fst (NewConnection_iteration w cm)))).
  { cbn. auto. }
  assert (Hfail : Handshake_err w = Some (errorString "bad certificate")) by reflexivity.
  pose proof (handshake_failure_closes_nothing w cm _ _ Hatt Hfail) as [Hit Hall].
  split; [ exact Hatt | ]. split; [ exact Hfail | ]. split.
  - destruct (NewConnection_iteration w cm) as [[evs cm'] ctl]. apply Hit.
  - apply Hall.
Defined.

(** ** The close-watcher *)

Lemma watcher_keeps_watching (conn : Conn) (counts : list Z) :
  is_nil conn = false ->
  handleServerClose conn (map (fun n => (n, None)) counts)
  = (repeat (CallRead conn 1) (S (List.length counts)), Watching).
Proof.
  intros Hest. induction counts as [ | n counts IH ]; cbn [map handleServerClose];
    rewrite Hest; [ reflexivity | ].
  rewrite IH. reflexivity.
Qed.

(** C5: the watcher of an established connection, at each answer of its
    one-byte read: on [io.EOF] it closes the connection and ends; on any
    other error it warns and ends, closing nothing; on no error it goes
    on to the next read whatever was read, and after any run of such
    reads it is still watching. *)
Theorem watcher_reacts_to_read (conn : Conn) (n : Z) (reads : list ReadReply)
    (Hest : is_nil conn = false) :
  handleServerClose conn ((n, Some EOF) :: reads)
  = ([CallRead conn 1; CallClose conn], Terminated) /\
  (forall msg : string,
     handleServerClose conn ((n, Some (errorString msg)) :: reads)
     = ([CallRead conn 1; LogWarn (errorString msg)], Terminated)) /\
  handleServerClose conn ((n, None) :: reads)
  = (CallRead conn 1 :: fst (handleServerClose conn reads),
     snd (handleServerClose conn reads)) /\
  (forall counts : list Z,
     handleServerClose conn (map (fun k => (k, None)) counts)
     = (repeat (CallRead conn 1) (S (List.length counts)), Watching)).
Proof.
  repeat split.
  - cbn [handleServerClose]. rewrite Hest. reflexivity.
  - intros msg. cbn [handleServerClose]. rewrite Hest. reflexivity.
  - cbn [handleServerClose]. rewrite Hest.
    destruct (handleServerClose conn reads) as [evs st]. reflexivity.
  - intros counts. apply watcher_keeps_watching. exact Hest.
Qed.

Lemma watcher_reacts_to_read_witness :
  is_nil (transport 7) = false /\
  handleServerClose (transport 7) [(0, Some EOF)]
  = ([CallRead (transport 7) 1; CallClose (transport 7)], Terminated) /\
  handleServerClose (transport 7) [(0, Some (errorString "connection reset by peer"))]
  = ([CallRead (transport 7) 1; LogWarn (errorString "connection reset by peer")],
     Terminated) /\
  handleServerClose (transport 7) [(1, None); (0, Some EOF)]
  = ([CallRead (transport 7) 1; CallRead (transport 7) 1; CallClose (transport 7)],
     Terminated).
Proof.
  assert (Hest : is_nil (transport 7) = false) by reflexivity.
  destruct (watcher_reacts_to_read (transport 7) 0 [] Hest) as (Heof & Herr & _).
  destruct (watcher_reacts_to_read (transport 7) 1 [(0, Some EOF)] Hest)
    as (_ & _ & Hok & _).
  split; [ exact Hest | ]. split; [ exact Heof | ]. split; [ apply Herr | ].
  rewrite Hok. exact (f_equal (fun p => (CallRead (transport 7) 1 :: fst p, snd p)) Heof).
Defined.

(** ** Errors of the dial step *)

(** X1: a direct dial that answers with an error: a warning, the backoff
    sleep, and round again with the count one higher; no handshake. *)
Lemma direct_dial_error_retries (w : Attempt) (cm : ConnectionManager)
    (fd : option nat) (e : error) :
  socksProxy cm = "" ->
  DialTimeout_reply w = (fd, Some e) ->
  let '(evs, cm', ctl) := NewConnection_iteration w cm in
  ctl = Continue /\
  retries cm' = Int.add (retries cm) 1 /\
  In (LogWarn e) evs /\
  sleeps evs = [backoffDuration (retries cm')] /\
  count is_handshake evs = 0%nat.
Proof.
  intros Hsp Hd. revert Hsp Hd.
  run_iteration w cm; intros Hp Hd; subst sp; try discriminate Hsp;
    try discriminate Hd; injection Hd as -> ->;
    repeat split; auto 10 using in_eq, in_cons.
Qed.

(** X2: when the SOCKS5 dialer cannot be built the iteration warns,
    sleeps the backoff and goes round again with the count one higher;
    no dial is made, through the proxy or directly, and no handshake is
    started. *)
Lemma socks5_error_retries (w : Attempt) (cm : ConnectionManager) (e : error) :
  socksProxy cm <> "" ->
  SOCKS5_err w = Some e ->
  let '(evs, cm', ctl) := NewConnection_iteration w cm in
  ctl = Continue /\
  retries cm' = Int.add (retries cm) 1 /\
  In (LogWarn e) evs /\
  sleeps evs = [backoffDuration (retries cm')] /\
  count is_handshake evs = 0%nat /\
  (forall network addr : string, ~ In (CallProxyDial network addr) evs) /\
  (forall (network addr : string) (t : Z), ~ In (CallDialTimeout network addr t) evs).
Proof.
  intros Hsp Hd. revert Hsp Hd.
  run_iteration w cm; intros Hp Hd;
    try (apply String.eqb_eq in Hsp; contradiction);
    try discriminate Hd; injection Hd as ->;
    repeat split; auto 10 using in_eq, in_cons;
    intros; intros Hin; cbn in Hin; intuition discriminate.
Qed.

(** X3: the error of a dial made through the proxy is assigned to the
    [err] of the proxy branch and never read: the iteration runs as if
    the dial had answered without an error. *)
Lemma proxy_dial_error_unread (cm : ConnectionManager) (se : option error)
    (fd : option nat) (pe : option error) (d : DialReply) (he : option error) :
  socksProxy cm <> "" ->
  NewConnection_iteration (mkAttempt se (fd, pe) d he) cm
  = NewConnection_iteration (mkAttempt se (fd, None) d he) cm.
Proof.
  intros Hsp. destruct cm as [cs sn dev sp r fc]. cbn in Hsp.
  apply String.eqb_neq in Hsp.
  unfold_stmts. cbn.
  destruct fc; cbn; rewrite Hsp; cbn; destruct se; cbn; try reflexivity;
    destruct pe; reflexivity.
Qed.


(** C1 at the failing input: a dev-mode manager behind a proxy, and a
    proxied dial that is refused (nil connection, error set).  The call
    returns at once, without a warning or a sleep, and what it returns
    is the nil connection; the watcher started on it panics. *)
Theorem NewConnection_returns_nil_on_refused_proxy_dial :
  let cm := NewConnectionManager "intake" 10516 true "127.0.0.1:1080" in
  let r := NewConnection cm [dial_fails] in
  proxyDial_reply dial_fails = (None, Some (errorString "connection refused")) /\
  outcome r = Returned nilConn /\
  count is_warn (trace r) = 0%nat /\
  sleeps (trace r) = [] /\
  In (Go_handleServerClose nilConn) (trace r) /\
  snd (handleServerClose nilConn []) = Panicked.
Proof. cbv zeta. repeat split; cbn; auto 10. Qed.

(** C2 at the failing input: the iteration that makes the refused
    proxied dial, in dev mode and with TLS.  No warning and no sleep;
    [retries] is back to zero; in dev mode the iteration returns the nil
    connection, with TLS it goes on to a handshake over it. *)
Theorem refused_proxy_dial_is_not_retried :
  let dev := NewConnectionManager "intake" 10516 true "127.0.0.1:1080" in
  let tls := NewConnectionManager "intake" 10516 false "127.0.0.1:1080" in
  NewConnection_iteration dial_fails dev
  = ([LogInfo ["Connecting to the backend: "; "intake:10516"];
      LogInfo ["Connecting to logs intake via socks5://"; "127.0.0.1:1080"];
      CallSOCKS5 "tcp" "127.0.0.1:1080" None Direct;
      CallProxyDial "tcp" "intake:10516";
      Go_handleServerClose nilConn],
     set_retries 0 (set_firstConn false dev),
     Return nilConn) /\
  NewConnection_iteration dial_fails tls
  = ([LogInfo ["Connecting to the backend: "; "intake:10516"];
      LogInfo ["Connecting to logs intake via socks5://"; "127.0.0.1:1080"];
      CallSOCKS5 "tcp" "127.0.0.1:1080" None Direct;
      CallProxyDial "tcp" "intake:10516";
      CallHandshake (tlsClient nilConn "intake");
      Go_handleServerClose (tlsClient nilConn "intake")],
     set_retries 0 (set_firstConn false tls),
     Return (tlsClient nilConn "intake")).
Proof. cbv zeta. split; reflexivity. Qed.

(** * Further properties *)

(** ** More on one iteration *)

Lemma iteration_no_mutex (w : Attempt) (cm : ConnectionManager) :
  let '(evs, _, _) := NewConnection_iteration w cm in
  Forall (fun ev => is_mutex ev = false) evs.
Proof. run_iteration w cm; repeat constructor. Qed.

Lemma iteration_watcher (w : Attempt) (cm : ConnectionManager) :
  let '(evs, _, ctl) := NewConnection_iteration w cm in
  match ctl with
  | Return c =>
      exists pre, evs = pre ++ [Go_handleServerClose c] /\
                  count is_watcher_start pre = 0%nat
  | Continue => count is_watcher_start evs = 0%nat
  | Val v => False
  end.
Proof.
  run_iteration w cm; try reflexivity;
    match goal with
    | |- exists pre, ?l = pre ++ _ /\ _ => exists (removelast l); split; reflexivity
    end.
Qed.

Lemma iteration_calls (w : Attempt) (cm : ConnectionManager) :
  let '(evs, _, _) := NewConnection_iteration w cm in
  count is_socks_info evs = (if socksProxy cm =? "" then 0%nat else 1%nat) /\
  count is_SOCKS5 evs = (if socksProxy cm =? "" then 0%nat else 1%nat) /\
  count is_DialTimeout evs = (if socksProxy cm =? "" then 1%nat else 0%nat).
Proof. run_iteration w cm; repeat split. Qed.

Lemma iteration_paired (w : Attempt) (cm : ConnectionManager) :
  let '(evs, _, _) := NewConnection_iteration w cm in
  warn_sleep_paired evs = true.
Proof. run_iteration w cm; reflexivity. Qed.

Lemma iteration_tls (w : Attempt) (cm : ConnectionManager) :
  devModeNoSSL cm = false ->
  let '(evs, _, ctl) := NewConnection_iteration w cm in
  match ctl with
  | Return c =>
      c = tlsClient (conn_of (fst (dial_reply cm w))) (serverName cm) /\
      Handshake_err w = None /\
      filter is_handshake evs = [CallHandshake c]
  | _ => True
  end.
Proof.
  intros Hdev. revert Hdev. unfold dial_reply.
  run_iteration w cm; intros Hdev; try discriminate Hdev; auto.
Qed.

Lemma iteration_handshakes (w : Attempt) (cm : ConnectionManager) :
  let '(evs, _, _) := NewConnection_iteration w cm in
  Forall (handshakes_as_configured cm) evs.
Proof.
  run_iteration w cm; repeat constructor; cbn; eauto.
Qed.

(** ** More on the loop *)

Lemma loop_config (world : list Attempt) :
  forall cm : ConnectionManager,
    config (final (NewConnection_loop cm world)) = config cm.
Proof.
  induction world as [ | w world IH ]; intros cm; [ reflexivity | ].
  rewrite loop_cons. pose proof (iteration_config w cm) as Hc.
  destruct (NewConnection_iteration w cm) as [[evs cm'] [ v | | c ]].
  - destruct v.
  - cbn [after final]. rewrite IH. exact Hc.
  - exact Hc.
Qed.

(** The attempts not used are what is left of the script after the ones
    used: one per warning, and one more for the attempt that returned. *)
Lemma loop_attempts (world : list Attempt) :
  forall cm : ConnectionManager,
    let r := NewConnection_loop cm world in
    List.length world
    = (count is_warn (trace r)
       + match outcome r with Returned _ => 1 | Blocked => 0 end
       + List.length (unused r))%nat.
Proof.
  induction world as [ | w world IH ]; intros cm; cbv zeta; [ reflexivity | ].
  rewrite loop_cons. pose proof (iteration_retries w cm) as Hit.
  destruct (NewConnection_iteration w cm) as [[evs cm'] [ v | | c ]].
  - destruct Hit.
  - destruct Hit as (_ & _ & Hw). cbn [after trace outcome unused List.length].
    rewrite count_app, Hw. specialize (IH cm'). cbv zeta in IH. lia.
  - destruct Hit as (_ & _ & Hw & _). cbn [trace outcome unused List.length]. lia.
Qed.

(** An event that every iteration emits a fixed number of times occurs
    that many times per attempt used. *)
Lemma loop_count (p : Event -> bool) (n : nat) (k : string * string * bool * string) :
  (forall (w : Attempt) (cm : ConnectionManager),
     config cm = k ->
     let '(evs, _, _) := NewConnection_iteration w cm in count p evs = n) ->
  forall (world : list Attempt) (cm : ConnectionManager),
    config cm = k ->
    count p (trace (NewConnection_loop cm world))
    = (n * attempts world (NewConnection_loop cm world))%nat.
Proof.
  intros Hit. unfold attempts.
  induction world as [ | w world IH ]; intros cm Hk; [ cbn; lia | ].
  rewrite loop_cons. specialize (Hit w cm Hk).
  pose proof (iteration_config w cm) as Hc.
  destruct (NewConnection_iteration w cm) as [[evs cm'] [ v | | c ]].
  - destruct v.
  - cbn [after trace unused List.length]. rewrite count_app, Hit.
    assert (Hk' : config cm' = k) by congruence.
    rewrite (IH cm' Hk').
    pose proof (loop_attempts world cm') as Ha. cbv zeta in Ha.
    replace (S (List.length world) - List.length (unused (NewConnection_loop cm' world)))%nat
      with (S (List.length world - List.length (unused (NewConnection_loop cm' world))))
      by lia.
    rewrite Nat.mul_succ_r. lia.
  - cbn [trace unused List.length].
    replace (S (List.length world) - List.length world)%nat with 1%nat by lia.
    rewrite Hit. lia.
Qed.

Lemma paired_app (b : list Event) :
  forall a : list Event,
    (warn_sleep_paired a = true ->
     warn_sleep_paired (a ++ b) = warn_sleep_paired b) /\
    (forall x : Event,
       warn_sleep_paired (x :: a) = true ->
       warn_sleep_paired ((x :: a) ++ b) = warn_sleep_paired b).
Proof.
  induction a as [ | y a [IH1 IH2] ].
  - split; [ reflexivity | ]. intros x. destruct x; cbn; intros H;
      try reflexivity; discriminate H.
  - split; [ apply IH2 | ].
    intros x. destruct x; try (cbn [app warn_sleep_paired]; intros H; apply (IH2 y H)).
    + destruct y; cbn [app warn_sleep_paired]; intros H; try discriminate H.
      apply IH1. exact H.
    + cbn. intros H. discriminate H.
Qed.

Lemma under_lock_held (evs : list Event) :
  Forall (fun ev => is_mutex ev = false) evs -> under_lock true evs = Some true.
Proof.
  induction 1 as [ | ev evs Hev _ IH ]; [ reflexivity | ].
  destruct ev; cbn in Hev |- *; try discriminate Hev; exact IH.
Qed.

Lemma under_lock_app (a b : list Event) :
  forall held held' : bool,
    under_lock held a = Some held' ->
    under_lock held (a ++ b) = under_lock held' b.
Proof.
  induction a as [ | ev a IH ]; intros held held' H.
  - cbn in H. injection H as ->. reflexivity.
  - destruct ev, held; cbn in H |- *; try discriminate H; apply IH; exact H.
Qed.

Lemma loop_returned_trace (world : list Attempt) :
  forall (cm : ConnectionManager) (c : Conn),
    outcome (NewConnection_loop cm world) = Returned c ->
    exists pre w cm1 evs before,
      world = pre ++ w :: unused (NewConnection_loop cm world) /\
      config cm1 = config cm /\
      NewConnection_iteration w cm1
      = (evs, final (NewConnection_loop cm world), Return c) /\
      trace (NewConnection_loop cm world) = before ++ evs.
Proof.
  induction world as [ | w world IH ]; intros cm c; [ discriminate | ].
  rewrite loop_cons. pose proof (iteration_config w cm) as Hc.
  destruct (NewConnection_iteration w cm) as [[evs cm'] [ v | | x ]] eqn:Hit.
  - destruct v.
  - cbn [after outcome unused final trace]. intros Ho.
    destruct (IH cm' c Ho) as (pre & w1 & cm1 & evs1 & before & Hw & Hk & Hr & Ht).
    exists (w :: pre), w1, cm1, evs1, (evs ++ before). repeat split.
    + cbn [app]. f_equal. exact Hw.
    + congruence.
    + exact Hr.
    + rewrite Ht. apply app_assoc.
  - cbn [outcome unused final trace]. intros Ho. injection Ho as ->.
    exists [], w, cm, evs, []. auto.
Qed.

Lemma loop_watcher (world : list Attempt) :
  forall cm : ConnectionManager,
    let r := NewConnection_loop cm world in
    match outcome r with
    | Returned c =>
        exists pre, trace r = pre ++ [Go_handleServerClose c] /\
                    count is_watcher_start pre = 0%nat
    | Blocked => count is_watcher_start (trace r) = 0%nat
    end.
Proof.
  induction world as [ | w world IH ]; intros cm; cbv zeta; [ reflexivity | ].
  rewrite loop_cons. pose proof (iteration_watcher w cm) as Hit.
  destruct (NewConnection_iteration w cm) as [[evs cm'] [ v | | c ]].
  - destruct Hit.
  - cbn [after outcome trace]. specialize (IH cm'). cbv zeta in IH.
    destruct (outcome (NewConnection_loop cm' world)).
    + rewrite count_app, Hit, IH. reflexivity.
    + destruct IH as (pre & -> & Hpre). exists (evs ++ pre).
      rewrite app_assoc, count_app, Hit, Hpre. auto.
  - exact Hit.
Qed.

Lemma loop_paired (world : list Attempt) :
  forall cm : ConnectionManager,
    warn_sleep_paired (trace (NewConnection_loop cm world)) = true /\
    List.length (sleeps (trace (NewConnection_loop cm world)))
    = count is_warn (trace (NewConnection_loop cm world)).
Proof.
  induction world as [ | w world IH ]; intros cm; [ split; reflexivity | ].
  rewrite loop_cons.
  pose proof (iteration_paired w cm) as Hp.
  pose proof (iteration_retries w cm) as Hit.
  destruct (NewConnection_iteration w cm) as [[evs cm'] [ v | | c ]].
  - destruct Hit.
  - destruct Hit as (_ & Hs & Hw). destruct (IH cm') as [IHp IHl].
    cbn [after trace]. split.
    + rewrite (proj1 (paired_app _ evs) Hp). exact IHp.
    + rewrite sleeps_app, length_app, count_app, Hs, Hw, IHl. reflexivity.
  - destruct Hit as (_ & Hs & Hw & _). cbn [trace]. rewrite Hs, Hw. auto.
Qed.



Lemma session_Forall (P : Event -> Prop) (k : string * string * bool * string) :
  P MutexLock -> P MutexUnlock ->
  (forall (w : Attempt) (cm : ConnectionManager),
     config cm = k ->
     let '(evs, _, _) := NewConnection_iteration w cm in Forall P evs) ->
  forall (calls : nat) (cm : ConnectionManager) (world : list Attempt),
    config cm = k ->
    Forall P (fst (session calls cm world)) /\ config (snd (session calls cm world)) = k.
Proof.
  intros Hl Hu Hit. induction calls as [ | calls IH ]; intros cm world Hk;
    [ split; [ constructor | exact Hk ] | ].
  cbn [session]. cbv zeta.
  assert (Hcall : Forall P (trace (NewConnection cm world))).
  { apply NewConnection_Forall; [ exact Hl | exact Hu | ].
    apply (loop_Forall P k); assumption. }
  destruct (NewConnection_trace cm world) as (_ & Hf & _).
  assert (Hk' : config (final (NewConnection cm world)) = k).
  { rewrite Hf, loop_config. exact Hk. }
  destruct (outcome (NewConnection cm world)); [ split; assumption | ].
  specialize (IH (final (NewConnection cm world)) (unused (NewConnection cm world)) Hk').
  destruct (session calls (final (NewConnection cm world)) (unused (NewConnection cm world)))
    as [evs cm'].
  cbn [fst snd] in *. destruct IH as [IH1 IH2]. split; [ | exact IH2 ].
  apply Forall_app. split; assumption.
Qed.

(** ** The dial step on its sound paths *)

Lemma direct_dial_error_retries_witness :
  let cm := NewConnectionManager "intake" 10516 false "" in
  socksProxy cm = "" /\
  DialTimeout_reply dial_fails = (None, Some (errorString "connection refused")) /\
  let '(evs, cm', ctl) := NewConnection_iteration dial_fails cm in
  ctl = Continue /\
  retries cm' = Int.add (retries cm) 1 /\
  In (LogWarn (errorString "connection refused")) evs /\
  sleeps evs = [backoffDuration (retries cm')] /\
  count is_handshake evs = 0%nat.
Proof.
  intros cm.
  assert (Hsp : socksProxy cm = "") by reflexivity.
  assert (Hd : DialTimeout_reply dial_fails
               = (None, Some (errorString "connection refused"))) by reflexivity.
  split; [ exact Hsp | ]. split; [ exact Hd | ].
  exact (direct_dial_error_retries dial_fails cm None _ Hsp Hd).
Defined.

Lemma socks5_error_retries_witness :
  let cm := NewConnectionManager "intake" 10516 false "127.0.0.1:1080" in
  let w := mkAttempt (Some (errorString "bad proxy address")) (None, None) (None, None) None in
  socksProxy cm <> "" /\
  SOCKS5_err w = Some (errorString "bad proxy address") /\
  let '(evs, cm', ctl) := NewConnection_iteration w cm in
  ctl = Continue /\
  retries cm' = Int.add (retries cm) 1 /\
  In (LogWarn (errorString "bad proxy address")) evs /\
  sleeps evs = [backoffDuration (retries cm')] /\
  count is_handshake evs = 0%nat /\
  (forall network addr : string, ~ In (CallProxyDial network addr) evs) /\
  (forall (network addr : string) (t : Z), ~ In (CallDialTimeout network addr t) evs).
Proof.
  intros cm w.
  assert (Hsp : socksProxy cm <> "") by (intros H; discriminate H).
  assert (Hd : SOCKS5_err w = Some (errorString "bad proxy address")) by reflexivity.
  split; [ exact Hsp | ]. split; [ exact Hd | ].
  exact (socks5_error_retries w cm _ Hsp Hd).
Defined.

Lemma proxy_dial_error_unread_witness :
  let cm := NewConnectionManager "intake" 10516 false "127.0.0.1:1080" in
  socksProxy cm <> "" /\
  NewConnection_iteration (mkAttempt None (None, refused) (None, None) None) cm
  = NewConnection_iteration (mkAttempt None (None, None) (None, None) None) cm.
Proof.
  intros cm.
  assert (Hsp : socksProxy cm <> "") by (intros H; discriminate H).
  split; [ exact Hsp | ].
  exact (proxy_dial_error_unread cm None None refused (None, None) None Hsp).
Defined.


(** ** TLS mode *)

(** X5: with dev mode off, every handshake of a call is made by a TLS
    client with the manager's server name, and a call that returns hands
    out that client, laid over the connection its last dial gave back,
    after a handshake on it that answered without an error. *)
Theorem tls_mode_returns_session (cm : ConnectionManager) (world : list Attempt)
    (Htls : devModeNoSSL cm = false) :
  let r := NewConnection cm world in
  Forall (handshakes_as_configured cm) (trace r) /\
  forall c : Conn,
    outcome r = Returned c ->
    exists pre w,
      world = pre ++ w :: unused r /\
      c = tlsClient (conn_of (fst (dial_reply cm w))) (serverName cm) /\
      Handshake_err w = None /\
      In (CallHandshake c) (trace r).
Proof.
  cbv zeta. split.
  - apply NewConnection_Forall; [ exact I | exact I | ].
    apply (loop_Forall _ (config cm)); [ | reflexivity ].
    intros w cm1 Hk. pose proof (iteration_handshakes w cm1) as H.
    destruct (NewConnection_iteration w cm1) as [[evs cm'] ctl].
    revert H. apply Forall_impl. intros ev.
    unfold config in Hk. injection Hk as _ Hsn Hd _.
    unfold handshakes_as_configured. rewrite Hsn, Hd. auto.
  - intros c. destruct (NewConnection_trace cm world) as (Ht & _ & Ho & Hu).
    rewrite Ho, Hu. intros Hret.
    destruct (loop_returned_trace world cm c Hret)
      as (pre & w & cm1 & evs & before & Hw & Hk & Hit & Htr).
    pose proof (iteration_tls w cm1) as H.
    unfold config in Hk. injection Hk as _ Hsn Hd Hsp.
    rewrite Hd in H. specialize (H Htls). rewrite Hit in H.
    destruct H as (Hc & Hh & Hf).
    exists pre, w. split; [ exact Hw | ]. split; [ | split; [ exact Hh | ] ].
    + rewrite Hc. unfold dial_reply. rewrite Hsp, Hsn. reflexivity.
    + rewrite Ht, Htr. right. apply in_or_app. left. apply in_or_app. right.
      assert (Hin : In (CallHandshake c) (filter is_handshake evs)).
      { rewrite Hf. left. reflexivity. }
      apply filter_In in Hin. apply Hin.
Qed.

Lemma tls_mode_returns_session_witness :
  let cm := NewConnectionManager "intake" 10516 false "" in
  let world := [dial_fails; dial_ok 7] in
  devModeNoSSL cm = false /\
  outcome (NewConnection cm world) = Returned (tlsClient (transport 7) "intake") /\
  Forall (handshakes_as_configured cm) (trace (NewConnection cm world)) /\
  exists pre w,
    world = pre ++ w :: unused (NewConnection cm world) /\
    tlsClient (transport 7) "intake"
    = tlsClient (conn_of (fst (dial_reply cm w))) (serverName cm) /\
    Handshake_err w = None /\
    In (CallHandshake (tlsClient (transport 7) "intake")) (trace (NewConnection cm world)).
Proof.
  intros cm world.
  assert (Htls : devModeNoSSL cm = false) by reflexivity.
  assert (Hret : outcome (NewConnection cm world)
                 = Returned (tlsClient (transport 7) "intake")) by reflexivity.
  destruct (tls_mode_returns_session cm world Htls) as [Hh Hc].
  split; [ exact Htls | ]. split; [ exact Hret | ]. split; [ exact Hh | ].
  exact (Hc _ Hret).
Defined.

(** ** The watcher, the lock, the warnings *)

(** X6: a call starts the close-watcher exactly once, on the connection
    it returns, as its last act before the unlock; a call still in its
    loop has started none. *)
Theorem watcher_started_on_return (cm : ConnectionManager) (world : list Attempt) :
  let r := NewConnection cm world in
  match outcome r with
  | Returned c =>
      exists pre,
        trace r = pre ++ [Go_handleServerClose c; MutexUnlock] /\
        count is_watcher_start pre = 0%nat
  | Blocked => count is_watcher_start (trace r) = 0%nat
  end.
Proof.
  cbv zeta. destruct (NewConnection_trace cm world) as (Ht & _ & Ho & _).
  pose proof (loop_watcher world cm) as Hw. cbv zeta in Hw.
  rewrite Ho, Ht. destruct (outcome (NewConnection_loop cm world)).
  - rewrite app_nil_r. change (MutexLock :: ?t) with ([MutexLock] ++ t).
    rewrite count_app, Hw. reflexivity.
  - destruct Hw as (pre & -> & Hpre). exists (MutexLock :: pre). split.
    + cbn [app]. rewrite <- app_assoc. reflexivity.
    + change (MutexLock :: pre) with ([MutexLock] ++ pre).
      rewrite count_app, Hpre. reflexivity.
Qed.

(** X7: the trace of a call is one lock, then events none of which
    locks or unlocks, then one unlock if the call has returned and none
    if it is still in its loop: the mutex is locked once, at the start,
    unlocked once, on return only, and held for everything in between
    (logging, dialing, handshake, sleeping).  Over any sequence of calls
    it is never locked while held nor unlocked while free, and nothing
    is done while it is free. *)
Theorem lock_held_for_whole_call (cm : ConnectionManager) (world : list Attempt) :
  (exists body,
     trace (NewConnection cm world)
     = MutexLock :: body
         ++ match outcome (NewConnection cm world) with
            | Returned _ => [MutexUnlock]
            | Blocked => []
            end /\
     Forall (fun ev => is_mutex ev = false) body) /\
  under_lock false (trace (NewConnection cm world))
  = Some (match outcome (NewConnection cm world) with
          | Blocked => true
          | Returned _ => false
          end) /\
  forall calls : nat, under_lock false (fst (session calls cm world)) <> None.
Proof.
  assert (Hbody : forall cm world,
            Forall (fun ev => is_mutex ev = false) (trace (NewConnection_loop cm world))).
  { clear. intros cm world. apply (loop_Forall _ (config cm)); [ | reflexivity ].
    intros w cm1 _. apply iteration_no_mutex. }
  assert (Hcall : forall cm world,
            under_lock false (trace (NewConnection cm world))
            = Some (match outcome (NewConnection cm world) with
                    | Blocked => true
                    | Returned _ => false
                    end)).
  { clear - Hbody. intros cm world.
    destruct (NewConnection_trace cm world) as (Ht & _ & Ho & _). rewrite Ht, Ho.
    cbn [under_lock].
    rewrite (under_lock_app _ _ true true (under_lock_held _ (Hbody cm world))).
    destruct (outcome (NewConnection_loop cm world)); reflexivity. }
  split; [ | split; [ apply Hcall | ] ].
  - destruct (NewConnection_trace cm world) as (Ht & _ & Ho & _).
    exists (trace (NewConnection_loop cm world)). rewrite Ho. split; [ exact Ht | apply Hbody ].
  - intros calls. revert cm world.
    induction calls as [ | calls IH ]; intros cm world; [ discriminate | ].
    cbn [session]. cbv zeta. pose proof (Hcall cm world) as Hc.
    destruct (outcome (NewConnection cm world)).
    + cbn [fst]. rewrite Hc. discriminate.
    + specialize (IH (final (NewConnection cm world)) (unused (NewConnection cm world))).
      destruct (session calls (final (NewConnection cm world)) (unused (NewConnection cm world)))
        as [evs cm'].
      cbn [fst] in *. rewrite (under_lock_app _ _ false false Hc). exact IH.
Qed.

(** X8: in a call every warning is followed at once by a backoff sleep
    and every sleep follows a warning, so there are as many of the one
    as of the other; each attempt used gave one warning, but for the one
    on which the call returned. *)
Theorem failed_attempts_warn_then_sleep (cm : ConnectionManager) (world : list Attempt) :
  let r := NewConnection cm world in
  warn_sleep_paired (trace r) = true /\
  List.length (sleeps (trace r)) = count is_warn (trace r) /\
  List.length world
  = (count is_warn (trace r)
     + match outcome r with Returned _ => 1 | Blocked => 0 end
     + List.length (unused r))%nat.
Proof.
  cbv zeta. destruct (NewConnection_trace cm world) as (Ht & _ & Ho & Hu).
  destruct (loop_paired world cm) as [Hp Hl].
  pose proof (loop_attempts world cm) as Ha. cbv zeta in Ha.
  rewrite sleeps_NewConnection, count_NewConnection, Ho, Hu by reflexivity.
  split; [ | split; assumption ].
  rewrite Ht. cbn [warn_sleep_paired].
  rewrite (proj1 (paired_app _ (trace (NewConnection_loop cm world))) Hp).
  destruct (outcome (NewConnection_loop cm world)); reflexivity.
Qed.

(** X9: each attempt a call uses makes its opening call once.  Without
    a proxy that is one [net.DialTimeout]; with a proxy it is one
    [proxy.SOCKS5], announced each time by the information message that
    names the proxy, and [net.DialTimeout] is not called. *)
Theorem every_attempt_opens_once (cm : ConnectionManager) (world : list Attempt) :
  let r := NewConnection cm world in
  let n := attempts world r in
  count is_DialTimeout (trace r) = (if socksProxy cm =? "" then n else 0%nat) /\
  count is_SOCKS5 (trace r) = (if socksProxy cm =? "" then 0%nat else n) /\
  count is_socks_info (trace r) = (if socksProxy cm =? "" then 0%nat else n).
Proof.
  cbv zeta. destruct (NewConnection_trace cm world) as (_ & _ & _ & Hu).
  unfold attempts at 1 2 3. rewrite Hu. fold (attempts world (NewConnection_loop cm world)).
  rewrite !count_NewConnection by reflexivity.
  assert (Hit : forall (w : Attempt) (cm1 : ConnectionManager),
            config cm1 = config cm ->
            let '(evs, _, _) := NewConnection_iteration w cm1 in
            count is_socks_info evs = (if socksProxy cm =? "" then 0%nat else 1%nat) /\
            count is_SOCKS5 evs = (if socksProxy cm =? "" then 0%nat else 1%nat) /\
            count is_DialTimeout evs = (if socksProxy cm =? "" then 1%nat else 0%nat)).
  { intros w cm1 Hk. pose proof (iteration_calls w cm1) as H.
    unfold config in Hk. injection Hk as _ _ _ Hsp. rewrite Hsp in H. exact H. }
  repeat split.
  - rewrite (loop_count is_DialTimeout (if socksProxy cm =? "" then 1%nat else 0%nat)
               (config cm)); [ | | reflexivity ].
    + destruct (socksProxy cm =? ""); lia.
    + intros w cm1 Hk. specialize (Hit w cm1 Hk).
      destruct (NewConnection_iteration w cm1) as [[evs cm'] ctl]. apply Hit.
  - rewrite (loop_count is_SOCKS5 (if socksProxy cm =? "" then 0%nat else 1%nat)
               (config cm)); [ | | reflexivity ].
    + destruct (socksProxy cm =? ""); lia.
    + intros w cm1 Hk. specialize (Hit w cm1 Hk).
      destruct (NewConnection_iteration w cm1) as [[evs cm'] ctl]. apply Hit.
  - rewrite (loop_count is_socks_info (if socksProxy cm =? "" then 0%nat else 1%nat)
               (config cm)); [ | | reflexivity ].
    + destruct (socksProxy cm =? ""); lia.
    + intros w cm1 Hk. specialize (Hit w cm1 Hk).
      destruct (NewConnection_iteration w cm1) as [[evs cm'] ctl]. apply Hit.
Qed.

(** ** More on backoff *)

(** X10: below the overflow the backoff never shortens as the count
    grows: it is 2 seconds a retry up to 15 retries and 30 seconds from
    there on. *)
Theorem backoff_grows_to_cap (r r' : Z) (Hr : 0 <= r <= r') (Hr' : r' < 2 ^ 62) :
  backoffDuration r <= backoffDuration r' /\
  (r <= 15 -> backoffDuration r = 2 * r * Second) /\
  (15 <= r -> backoffDuration r = 30 * Second).
Proof.
  rewrite !backoffDuration_small by lia. unfold Second. repeat split.
  - lia.
  - intros H. rewrite Z.min_l by lia. reflexivity.
  - intros H. rewrite Z.min_r by lia. reflexivity.
Qed.

Lemma backoff_grows_to_cap_witness :
  (0 <= 7 <= 20) /\ 20 < 2 ^ 62 /\
  backoffDuration 7 <= backoffDuration 20 /\
  backoffDuration 7 = 2 * 7 * Second /\
  backoffDuration 20 = 30 * Second.
Proof.
  assert (H1 : 0 <= 7 <= 20) by lia.
  assert (H2 : 20 < 2 ^ 62) by lia.
  assert (H3 : 0 <= 20 <= 20) by lia.
  assert (H4 : 7 <= 15) by lia.
  assert (H5 : 15 <= 20) by lia.
  split; [ exact H1 | ]. split; [ exact H2 | ].
  destruct (backoff_grows_to_cap 7 20 H1 H2) as (Hle & Hlow & _).
  destruct (backoff_grows_to_cap 20 20 H3 H2) as (_ & _ & Hcap).
  split; [ exact Hle | ]. split; [ exact (Hlow H4) | exact (Hcap H5) ].
Defined.



(** X12: whatever count the manager was left with, the call that
    follows a call that returned starts its backoff again from 2
    seconds: its k-th sleep is the one a count of k gives. *)
Theorem backoff_restarts_after_return (cm : ConnectionManager) (world : list Attempt)
    (c : Conn)
    (Hret : outcome (NewConnection cm world) = Returned c)
    (Hlen : Z.of_nat (List.length world) < 2 ^ 62) :
  let next := NewConnection (final (NewConnection cm world)) (unused (NewConnection cm world)) in
  sleeps (trace next)
  = map (fun k => backoffDuration (Z.of_nat k)) (seq 1 (count is_warn (trace next))).
Proof.
  cbv zeta. destruct (call_returned cm world c Hret) as [Hr Hu].
  apply call_sleeps; [ exact Hr | lia ].
Qed.

Lemma backoff_restarts_after_return_witness :
  let cm := set_retries 9 (NewConnectionManager "intake" 10516 true "") in
  let world := [dial_fails; dial_ok 7; dial_fails; dial_ok 8] in
  outcome (NewConnection cm world) = Returned (transport 7) /\
  Z.of_nat (List.length world) < 2 ^ 62 /\
  sleeps (trace (NewConnection cm world)) = [20 * Second] /\
  sleeps (trace (NewConnection (final (NewConnection cm world))
                   (unused (NewConnection cm world))))
  = [2 * Second].
Proof.
  intros cm world.
  assert (Hret : outcome (NewConnection cm world) = Returned (transport 7)) by reflexivity.
  assert (Hlen : Z.of_nat (List.length world) < 2 ^ 62) by (cbn; lia).
  split; [ exact Hret | ]. split; [ exact Hlen | ]. split; [ reflexivity | ].
  rewrite (backoff_restarts_after_return cm world _ Hret Hlen). reflexivity.
Defined.

(** ** More on the watcher *)

(** X13: the watcher of an established connection stops at the first
    read that answers with an error, whatever the script holds after
    it.  Up to there it has made one 1-byte read on its connection per
    answer and nothing else; it ends with one close of that connection
    if the error is [io.EOF], with one warning and no close otherwise. *)
Theorem watcher_stops_at_first_error (conn : Conn) (counts : list Z) (n : Z)
    (e : error) (rest : list ReadReply) (Hest : is_nil conn = false) :
  handleServerClose conn (map (fun k => (k, None)) counts ++ (n, Some e) :: rest)
  = (repeat (CallRead conn 1) (S (List.length counts))
       ++ [match e with EOF => CallClose conn | _ => LogWarn e end],
     Terminated).
Proof.
  induction counts as [ | k counts IH ]; cbn [map app handleServerClose];
    rewrite Hest.
  - destruct e; reflexivity.
  - rewrite IH. reflexivity.
Qed.

Lemma watcher_stops_at_first_error_witness :
  is_nil (transport 7) = false /\
  handleServerClose (transport 7)
    (map (fun k => (k, None)) [1; 0] ++ (1, Some EOF) :: [(0, None); (0, Some EOF)])
  = ([CallRead (transport 7) 1; CallRead (transport 7) 1; CallRead (transport 7) 1;
      CallClose (transport 7)],
     Terminated).
Proof.
  assert (Hest : is_nil (transport 7) = false) by reflexivity.
  split; [ exact Hest | ].
  exact (watcher_stops_at_first_error (transport 7) [1; 0] 1 EOF
           [(0, None); (0, Some EOF)] Hest).
Defined.

(** ** Sequences of calls *)

(** X14: the four fields the constructor sets (target, server name, dev
    mode, proxy) are the same after any sequence of calls as before
    it. *)
Theorem session_keeps_config (calls : nat) (cm : ConnectionManager)
    (world : list Attempt) :
  config (snd (session calls cm world)) = config cm.
Proof.
  apply (session_Forall (fun _ => True) (config cm)); auto.
  intros w cm1 _. destruct (NewConnection_iteration w cm1) as [[evs cm'] ctl].
  apply Forall_forall. auto.
Qed.

(** X15: on a manager built by the constructor, over any sequence of
    calls, every dial is over tcp to host:port, every SOCKS5 dialer is
    built for the proxy address with no authentication, and every TLS
    handshake is made by a client configured with the host as server
    name. *)
Theorem session_targets_constructor_arguments (host : string) (port : Z)
    (dev : bool) (proxy : string) (calls : nat) (world : list Attempt) :
  Forall
    (fun ev =>
       match ev with
       | CallDialTimeout network addr _ =>
           network = "tcp" /\ addr = (host ++ ":" ++ sprint_d port)%string
       | CallProxyDial network addr =>
           network = "tcp" /\ addr = (host ++ ":" ++ sprint_d port)%string
       | CallSOCKS5 network addr auth _ =>
           network = "tcp" /\ addr = proxy /\ auth = None
       | CallHandshake c => exists under, c = tlsClient under host
       | _ => True
       end)
    (fst (session calls (NewConnectionManager host port dev proxy) world)).
Proof.
  apply (session_Forall _ (config (NewConnectionManager host port dev proxy)));
    [ exact I | exact I | | reflexivity ].
  intros w cm Hk.
  pose proof (iteration_dials w cm) as Hd.
  pose proof (iteration_handshakes w cm) as Hh.
  destruct (NewConnection_iteration w cm) as [[evs cm'] ctl].
  destruct Hd as [Hd _]. rewrite Forall_forall in Hd, Hh. apply Forall_forall.
  intros ev Hin. specialize (Hd ev Hin). specialize (Hh ev Hin).
  unfold config in Hk. injection Hk as Hcs Hsn _ Hsp.
  destruct ev; auto; cbn [dials_as_configured handshakes_as_configured] in Hd, Hh.
  - destruct Hd as (_ & Hn & Ha & Hau & _).
    split; [ exact Hn | ]. split; [ | exact Hau ]. rewrite Ha, Hsp. reflexivity.
  - destruct Hd as (_ & Hn & Ha).
    split; [ exact Hn | ]. rewrite Ha, Hcs. reflexivity.
  - destruct Hd as (_ & Hn & Ha & _).
    split; [ exact Hn | ]. rewrite Ha, Hcs. reflexivity.
  - destruct Hh as (_ & under & Hc). exists under. rewrite Hc, Hsn. reflexivity.
Qed.
